(** * Technical-indicator layer of the crypto analysis dashboard

    A shallow embedding of the calculation hooks of the dashboard
    ([useTechnicalAnalysis] with its local [calculateSMA] and [calculateRSI],
    and [useRiskReturnAnalysis]) together with the properties the
    specification states about them.

    The hooks compute on JavaScript numbers.  The embedding is written once,
    over an interface [Number] of the operations the hooks use, and is
    instantiated at the kernel's binary64 floats (the arithmetic the program
    really runs on, executable), at the rationals [Q] (exact arithmetic,
    executable) and at the reals [R] (exact arithmetic with square roots).
    What is proved for every instance holds of the program; what is proved
    for [Q] or [R] only is a statement about exact arithmetic, and says so. *)

From Stdlib Require Import String.
From Stdlib Require Import List Bool Arith ZArith Lia.
From Stdlib Require Import QArith Qminmax Qabs Lqa.
From Stdlib Require Import Floats Uint63.
From Stdlib Require Reals Lra.
Import ListNotations.

Close Scope Q_scope.
Set Implicit Arguments.

(** ** The numbers the hooks compute on *)

Class Number (T : Type) : Type := {
  ofNat  : nat -> T;          (* an integer literal, or [period] as a number *)
  add    : T -> T -> T;       (* a + b *)
  sub    : T -> T -> T;       (* a - b *)
  mul    : T -> T -> T;       (* a * b *)
  div    : T -> T -> T;       (* a / b *)
  gt0    : T -> bool;         (* a > 0 *)
  truthy : T -> bool;         (* ToBoolean(a): false for 0, -0 and NaN *)
  nmin   : T -> T -> T;       (* Math.min(a, b) *)
  nmax   : T -> T -> T;       (* Math.max(a, b) *)
  nabs   : T -> T             (* Math.abs(a) *)
}.

(** [Math.sqrt] and the exponentiation operator with an integer exponent. *)
Class MathLib (T : Type) : Type := {
  msqrt : T -> T;
  mpow  : T -> nat -> T
}.

Definition zero {T} `{Number T} : T := ofNat 0.
Definition one {T} `{Number T} : T := ofNat 1.
Definition hundred {T} `{Number T} : T := ofNat 100.

(** [a || b] on numbers. *)
Definition js_or {T} `{Number T} (a b : T) : T := if truthy a then a else b.

(** ** Control and array helpers *)

(** [for (let i = start; i < start + n; i++) body], threading the loop state.
    [None] is an abrupt completion of the body. *)
Fixpoint for_range {St : Type} (body : nat -> St -> option St)
  (start n : nat) (s : St) : option St :=
  match n with
  | O => Some s
  | S n' =>
      match body start s with
      | None => None
      | Some s' => for_range body (S start) n' s'
      end
  end.

(** [l.slice(a, b)] for [0 <= a]. *)
Definition slice {A : Type} (l : list A) (a b : nat) : list A :=
  firstn (b - a) (skipn a l).

(** [l.slice(-k)]: the last [k] elements, the whole array when it is shorter. *)
Definition slice_last {A : Type} (k : nat) (l : list A) : list A :=
  skipn (length l - k) l.

Definition bind {A B : Type} (o : option A) (f : A -> option B) : option B :=
  match o with
  | None => None
  | Some a => f a
  end.

Notation "v <- o ;; k" := (bind o (fun v => k))
  (at level 61, o at next level, right associativity).

(** ** The hooks *)

Section Hooks.

Context {T : Type} `{NT : Number T}.

(** An element [{x, y}] of an indicator series. *)
Record IndicatorPoint : Type := mkPoint { pt_x : Z; pt_y : T }.

(** A scalar of the snapshot: [null], a number, or the value [Math.min] and
    [Math.max] give without operands. *)
Inductive scalar : Type :=
| Null
| Num (v : T)
| PosInfinity
| NegInfinity.

Record TechnicalSnapshot : Type := mkSnapshot {
  sma20 : list IndicatorPoint;
  sma50 : list IndicatorPoint;
  rsi : list IndicatorPoint;
  support : scalar;
  resistance : scalar
}.

(** [l.reduce((acc, val) => acc + val, 0)]. *)
Definition sum (l : list T) : T := fold_left add l zero.

(** [Math.min(...l)] and [Math.max(...l)]. *)
Definition Math_min (l : list T) : scalar :=
  match l with
  | [] => PosInfinity
  | v :: r => Num (fold_left nmin r v)
  end.

Definition Math_max (l : list T) : scalar :=
  match l with
  | [] => NegInfinity
  | v :: r => Num (fold_left nmax r v)
  end.

(** The price series is an array of pairs [[timestamp, value]].  [prices[i][0]]
    raises a TypeError when [prices[i]] is undefined: [None]. *)
Definition timestamp (prices : list (Z * T)) (i : nat) : option Z :=
  option_map fst (nth_error prices i).

(** [calculateSMA], a closure over [prices].  [period] is at least 1 (the hook
    calls it with 20 and 50); the loop starts at [period - 1], so the index
    [i - period + 1] is the natural number [i + 1 - period]. *)
Definition sma_body (prices : list (Z * T)) (data : list T) (period : nat)
  (i : nat) (sma : list IndicatorPoint) : option (list IndicatorPoint) :=
  let sum := sum (slice data (i + 1 - period) (i + 1)) in
  t <- timestamp prices i ;;
  Some (sma ++ [mkPoint t (div sum (ofNat period))]).

Definition calculateSMA (prices : list (Z * T)) (data : list T) (period : nat)
  : option (list IndicatorPoint) :=
  for_range (sma_body prices data period)
    (period - 1) (length data - (period - 1)) [].

(** The loop state of [calculateRSI]. *)
Record rsi_state : Type := mkState {
  st_rsi : list IndicatorPoint;
  gains : T;
  losses : T
}.

(** The value pushed at an emission; [avgLoss || 1] is the divisor. *)
Definition rsiValue (gains losses : T) (period : nat) : T :=
  let avgGain := div gains (ofNat period) in
  let avgLoss := div losses (ofNat period) in
  let rs := div avgGain (js_or avgLoss one) in
  sub hundred (div hundred (add one rs)).

(** One iteration of the loop of [calculateRSI], in its two halves.  A read
    of [data] past its end gives [undefined] in the source; the model stops
    with [None] there. *)

(** The delta of sample [i] goes into [gains] or into [losses]. *)
Definition rsi_accumulate (data : list T) (i : nat) (st : rsi_state)
  : option rsi_state :=
  cur <- nth_error data i ;;
  prev <- nth_error data (i - 1) ;;
  let change := sub cur prev in
  if gt0 change
  then Some (mkState (st_rsi st) (add (gains st) change) (losses st))
  else Some (mkState (st_rsi st) (gains st) (sub (losses st) change)).

(** [if (i >= period) { ... }]: the value is pushed and the delta that leaves
    the window is taken out of the sums. *)
Definition rsi_emit (prices : list (Z * T)) (data : list T) (period : nat)
  (i : nat) (st : rsi_state) : option rsi_state :=
  if period <=? i then
    let rsiValue := rsiValue (gains st) (losses st) period in
    t <- timestamp prices i ;;
    let out := st_rsi st ++ [mkPoint t rsiValue] in
    a <- nth_error data (i - period + 1) ;;
    b <- nth_error data (i - period) ;;
    let prevChange := sub a b in
    if gt0 prevChange
    then Some (mkState out (sub (gains st) prevChange) (losses st))
    else Some (mkState out (gains st) (add (losses st) prevChange))
  else Some st.

Definition rsi_body (prices : list (Z * T)) (data : list T) (period : nat)
  (i : nat) (st : rsi_state) : option rsi_state :=
  st1 <- rsi_accumulate data i st ;;
  rsi_emit prices data period i st1.

Definition rsi_loop (prices : list (Z * T)) (data : list T) (period : nat)
  : option rsi_state :=
  for_range (rsi_body prices data period) 1 (length data - 1)
    (mkState [] zero zero).

Definition calculateRSI (prices : list (Z * T)) (data : list T) (period : nat)
  : option (list IndicatorPoint) :=
  option_map st_rsi (rsi_loop prices data period).

(** The snapshot returned for an absent or empty series. *)
Definition emptySnapshot : TechnicalSnapshot := mkSnapshot [] [] [] Null Null.

(** [useTechnicalAnalysis].  The argument is [None] when [prices] is null or
    undefined; the result is [None] when a step raises. *)

Definition useTechnicalAnalysis (prices : option (list (Z * T)))
  : option TechnicalSnapshot :=
  match prices with
  | None => Some emptySnapshot
  | Some [] => Some emptySnapshot
  | Some prices =>
      let closingPrices := map snd prices in
      sma20 <- calculateSMA prices closingPrices 20 ;;
      sma50 <- calculateSMA prices closingPrices 50 ;;
      rsi <- calculateRSI prices closingPrices 14 ;;
      let recentPrices := slice_last 90 closingPrices in
      let support := Math_min recentPrices in
      let resistance := Math_max recentPrices in
      Some (mkSnapshot sma20 sma50 rsi support resistance)
  end.

(** An entry of the market snapshot.  The field read by the projector is
    [None] when the provider did not send it. *)
Record CryptoStats : Type := mkStats {
  name : string;
  image : string;
  price_change_percentage_24h_in_currency : option T
}.

Record RiskReturnPoint : Type := mkRR {
  rr_x : T;
  rr_y : T;
  rr_name : string;
  rr_image : string
}.

End Hooks.

Arguments IndicatorPoint T : clear implicits.
Arguments scalar T : clear implicits.
Arguments TechnicalSnapshot T : clear implicits.
Arguments rsi_state T : clear implicits.
Arguments CryptoStats T : clear implicits.
Arguments RiskReturnPoint T : clear implicits.

(** ** Numbers with the NaN of an absent field *)

(** The number a field read gives: [ToNumber(undefined)] is NaN, and NaN is
    what every arithmetic operation returns on it; it is falsy and compares
    false.  On the other values the operations are those of [T]. *)
Inductive jsnumber (T : Type) : Type :=
| NaN
| Val (v : T).

Arguments NaN {T}.
Arguments Val {T} v.

Definition lift1 {T : Type} (f : T -> T) (a : jsnumber T) : jsnumber T :=
  match a with
  | Val v => Val (f v)
  | NaN => NaN
  end.

Definition lift2 {T : Type} (f : T -> T -> T) (a b : jsnumber T)
  : jsnumber T :=
  match a, b with
  | Val v, Val w => Val (f v w)
  | _, _ => NaN
  end.

Definition holds {T : Type} (f : T -> bool) (a : jsnumber T) : bool :=
  match a with
  | Val v => f v
  | NaN => false
  end.

#[export] Instance Number_jsnumber {T : Type} `{NT : Number T}
  : Number (jsnumber T) := {
  ofNat n := Val (ofNat n);
  add := lift2 add;
  sub := lift2 sub;
  mul := lift2 mul;
  div := lift2 div;
  gt0 := holds gt0;
  truthy := holds truthy;
  nmin := lift2 nmin;
  nmax := lift2 nmax;
  nabs := lift1 nabs
}.

(** [Math.sqrt(NaN)] is NaN; [NaN ** 0] is 1 and [NaN ** n] is NaN
    otherwise. *)
#[export] Instance MathLib_jsnumber {T : Type} `{NT : Number T}
  `{ML : MathLib T} : MathLib (jsnumber T) := {
  msqrt := lift1 msqrt;
  mpow a n :=
    match a, n with
    | Val v, _ => Val (mpow v n)
    | NaN, O => Val one
    | NaN, S _ => NaN
    end
}.

Section Projector.

Context {T : Type} `{NT : Number T} `{ML : MathLib T}.

(** The projector reads fields of records and does arithmetic: none of its
    steps can raise, so it is a total function. *)

(** The field as the operand of [/]: an absent field is [undefined], which
    converts to NaN. *)
Definition toNumber (field : option T) : jsnumber T :=
  match field with
  | Some c => Val c
  | None => NaN
  end.

(** [coin[...] / 100 || 0]. *)
Definition dailyReturn (coin : CryptoStats T) : jsnumber T :=
  js_or
    (div (toNumber (price_change_percentage_24h_in_currency coin)) (ofNat 100))
    zero.

Definition projectCoin (coin : CryptoStats T) : RiskReturnPoint (jsnumber T) :=
  let dailyReturn := dailyReturn coin in
  let volatility := mul (nabs dailyReturn) (msqrt (ofNat 365)) in
  let annualReturn := sub (mpow (add one dailyReturn) 365) one in
  mkRR volatility annualReturn (name coin) (image coin).

(** [useRiskReturnAnalysis]; [None] is a null or undefined [marketData]. *)
Definition useRiskReturnAnalysis (marketData : option (list (CryptoStats T)))
  (days : nat) : list (RiskReturnPoint (jsnumber T)) :=
  match marketData with
  | None => []
  | Some [] => []
  | Some marketData => map projectCoin marketData
  end.

End Projector.

(** ** The window sums recomputed in full (the specification's naive RSI) *)

Section Naive.

Context {T : Type} `{NT : Number T}.

(** The delta between sample [j] and the sample before it. *)
Definition delta (data : list T) (j : nat) : T :=
  sub (nth j data zero) (nth (j - 1) data zero).

(** The [W] most recent deltas at index [i]: those ending at samples
    [i - W + 1], ..., [i]. *)
Definition windowDeltas (data : list T) (W i : nat) : list T :=
  map (delta data) (seq (i + 1 - W) W).

Definition isNegative (c : T) : bool := gt0 (sub zero c).

(** The sum of the positive deltas of the window. *)
Definition naiveGains (data : list T) (W i : nat) : T :=
  sum (filter gt0 (windowDeltas data W i)).

(** The sum of the magnitudes of the negative deltas of the window. *)
Definition naiveLosses (data : list T) (W i : nat) : T :=
  sum (map nabs (filter isNegative (windowDeltas data W i))).

Definition timestampAt (prices : list (Z * T)) (i : nat) : Z :=
  fst (nth i prices (0%Z, zero)).

Definition naivePoint (prices : list (Z * T)) (data : list T) (W i : nat)
  : IndicatorPoint T :=
  mkPoint (timestampAt prices i)
    (rsiValue (naiveGains data W i) (naiveLosses data W i) W).

(** One point per sample from index [W] on, both sums recomputed each time. *)
Definition naiveRSI (prices : list (Z * T)) (data : list T) (W : nat)
  : list (IndicatorPoint T) :=
  map (naivePoint prices data W) (seq W (length data - W)).

(** The unweighted mean of a window. *)
Definition mean (l : list T) : T := div (sum l) (ofNat (length l)).

(** The closing value of sample [i] of the paired series. *)
Definition closeAt (prices : list (Z * T)) (i : nat) : T :=
  snd (nth i prices (0%Z, zero)).

(** The sum [f 0 + f 1 + ... + f (n - 1)] of the first [n] terms of a
    sequence, by the recurrence that defines it: the empty sum is 0 and the
    sum of [n + 1] terms is the sum of the first [n] plus the last. *)
Fixpoint series_sum (f : nat -> T) (n : nat) : T :=
  match n with
  | O => zero
  | S m => add (series_sum f m) (f m)
  end.

(** The accumulators the loop of [calculateRSI] holds at sample [i] when the
    value of that sample is computed: the state of the loop after the
    iterations [1 .. i - 1] and the first half of iteration [i]. *)
Definition accumulatorsAt (prices : list (Z * T)) (data : list T) (W i : nat)
  : option (T * T) :=
  st <- for_range (rsi_body prices data W) 1 (i - 1) (mkState [] zero zero) ;;
  st1 <- rsi_accumulate data i st ;;
  Some (gains st1, losses st1).

(** The output of [calculateSMA] in closed form: one point per index from
    [W - 1] on, with the sample's timestamp and the mean of the [W] samples
    ending there. *)
Definition smaPoint (prices : list (Z * T)) (data : list T) (W i : nat)
  : IndicatorPoint T :=
  mkPoint (timestampAt prices i) (mean (slice data (i + 1 - W) (i + 1))).

End Naive.

(** ** Exact rational arithmetic *)

#[export] Instance Number_Q : Number Q := {
  ofNat n := inject_Z (Z.of_nat n);
  add := Qplus;
  sub := Qminus;
  mul := Qmult;
  div := Qdiv;
  gt0 q := negb (Qle_bool q 0);
  truthy q := negb (Qeq_bool q 0);
  nmin := Qmin;
  nmax := Qmax;
  nabs := Qabs
}.

(** ** IEEE 754 binary64 arithmetic, the numbers of the source language *)

Definition float_min (a b : float) : float :=
  if (PrimFloat.is_nan a || PrimFloat.is_nan b)%bool then PrimFloat.nan
  else if PrimFloat.ltb a b then a
  else if PrimFloat.ltb b a then b
  else if PrimFloat.ltb (PrimFloat.div 1 a) 0 then a else b.

Definition float_max (a b : float) : float :=
  if (PrimFloat.is_nan a || PrimFloat.is_nan b)%bool then PrimFloat.nan
  else if PrimFloat.ltb a b then b
  else if PrimFloat.ltb b a then a
  else if PrimFloat.ltb (PrimFloat.div 1 a) 0 then b else a.

#[export] Instance Number_float : Number float := {
  ofNat n := PrimFloat.of_uint63 (Uint63.of_Z (Z.of_nat n));
  add := PrimFloat.add;
  sub := PrimFloat.sub;
  mul := PrimFloat.mul;
  div := PrimFloat.div;
  gt0 x := PrimFloat.ltb 0 x;
  truthy x := negb (PrimFloat.eqb x 0 || PrimFloat.is_nan x);
  nmin := float_min;
  nmax := float_max;
  nabs := PrimFloat.abs
}.

(** ** Exact real arithmetic, for the square root of the projector *)

#[export] Instance Number_R : Number Rdefinitions.R := {
  ofNat := Raxioms.INR;
  add := Rdefinitions.Rplus;
  sub := Rdefinitions.Rminus;
  mul := Rdefinitions.Rmult;
  div := Rdefinitions.Rdiv;
  gt0 x := if RIneq.Rlt_dec (Rdefinitions.IZR 0) x then true else false;
  truthy x := if RIneq.Req_dec_T x (Rdefinitions.IZR 0) then false else true;
  nmin := Rbasic_fun.Rmin;
  nmax := Rbasic_fun.Rmax;
  nabs := Rbasic_fun.Rabs
}.

#[export] Instance MathLib_R : MathLib Rdefinitions.R := {
  msqrt := R_sqrt.sqrt;
  mpow := Rpow_def.pow
}.

(** ** Exact arithmetic: the window sums and the invariant of the loop *)

Section ExactDefinitions.

Local Open Scope Q_scope.

(** Two points are equal when their timestamps are the same and their values
    are the same rational. *)
Definition peq (p q : IndicatorPoint Q) : Prop :=
  pt_x p = pt_x q /\ pt_y p == pt_y q.

Definition posPart (c : Q) : Q := if gt0 c then c else 0.
Definition negPart (c : Q) : Q := if gt0 c then 0 else - c.

(** The two window sums over the deltas of the samples [a .. a + n - 1]. *)
Definition posSum (data : list Q) (a n : nat) : Q :=
  sum (filter gt0 (map (delta data) (seq a n))).

Definition negSum (data : list Q) (a n : nat) : Q :=
  sum (map nabs (filter isNegative (map (delta data) (seq a n)))).

(** Before the iteration at sample [i] the accumulators hold the deltas of the
    [held W i] samples that precede [i], the oldest at sample [oldest W i]. *)
Definition held (W i : nat) : nat := Nat.min (i - 1) (W - 1).
Definition oldest (W i : nat) : nat := (i - held W i)%nat.

Definition rsi_inv (prices : list (Z * Q)) (data : list Q) (W i : nat)
  (st : rsi_state Q) : Prop :=
  gains st == posSum data (oldest W i) (held W i) /\
  losses st == negSum data (oldest W i) (held W i) /\
  Forall2 peq (st_rsi st) (map (naivePoint prices data W) (seq W (i - W))).

Definition increasing (data : list Q) : Prop :=
  forall j, (1 <= j < length data)%nat -> nth (j - 1) data 0 < nth j data 0.

Definition flat (data : list Q) : Prop :=
  forall j, (1 <= j < length data)%nat -> nth j data 0 == nth (j - 1) data 0.

End ExactDefinitions.

(** ** Sample series *)

(** A series with the timestamps 0, 1, 2, ... *)
Definition stamped {T : Type} (values : list T) : list (Z * T) :=
  combine (map Z.of_nat (seq 0 (length values))) values.

(** Prices given in cents: [n / 100] is the number the decimal literal
    denotes. *)
Definition cents {T : Type} `{Number T} (l : list nat) : list T :=
  map (fun n => div (ofNat n) (ofNat 100)) l.

(** 1.00, 0.50, 0.30, then one cent up at each of fifteen samples. *)
Definition dip_then_rise {T : Type} `{Number T} : list (Z * T) :=
  stamped (cents [100; 50; 30; 31; 32; 33; 34; 35; 36; 37; 38; 39; 40; 41;
                  42; 43; 44; 45]).

(** 1, 2, ..., 15. *)
Definition steady_rise {T : Type} `{Number T} : list (Z * T) :=
  stamped (map ofNat (seq 1 15)).

Definition five_closes {T : Type} `{Number T} : list (Z * T) :=
  stamped (map ofNat [5; 3; 8; 1; 9]).

Definition level_series {T : Type} `{Number T} : list (Z * T) :=
  stamped (map ofNat [7; 7; 7; 7]).

(** The sample series over the rationals and over binary64. *)
Definition dip_then_rise_Q : list (Z * Q) := dip_then_rise.
Definition dip_then_rise_f : list (Z * float) := dip_then_rise.
Definition steady_rise_Q : list (Z * Q) := steady_rise.
Definition steady_rise_f : list (Z * float) := steady_rise.
Definition five_closes_Q : list (Z * Q) := five_closes.
Definition five_closes_f : list (Z * float) := five_closes.
Definition level_series_Q : list (Z * Q) := level_series.

(** 0.42 at each of sixteen samples. *)
Definition flat_series_f : list (Z * float) :=
  stamped (cents (repeat 42 16)).

(** 0.39, 0.23, 0.30, 0.25, 0.46, then 0.42 at each of seventeen samples. *)
Definition moves_then_flat {T : Type} `{Number T} : list (Z * T) :=
  stamped (cents ([39; 23; 30; 25; 46] ++ repeat 42 17)).

Definition moves_then_flat_Q : list (Z * Q) := moves_then_flat.
Definition moves_then_flat_f : list (Z * float) := moves_then_flat.

(** An asset whose 24-hour change is 10 percent, and one without the field. *)
Definition ten_percent {T : Type} `{Number T} : CryptoStats T :=
  mkStats "Bitcoin" "bitcoin.png" (Some (ofNat 10)).

Definition no_change_field {T : Type} `{Number T} : CryptoStats T :=
  mkStats "Tether" "tether.png" None.

(** [Math.sqrt] on binary64 is the correctly rounded square root; the result
    of the exponentiation operator is left to the engine by the language
    definition, so it is a parameter. *)
Definition binary64_math (pow : float -> nat -> float) : MathLib float :=
  {| msqrt := PrimFloat.sqrt; mpow := pow |}.

(** The binary64 numbers that the literals 0.1 and 1.1 denote. *)
Definition one_tenth : float := 0x1.999999999999ap-4.
Definition eleven_tenths : float := 0x1.199999999999ap+0.

(** ** Series used by the further properties *)

Section MoreSeries.

Local Open Scope Q_scope.

Definition decreasing (data : list Q) : Prop :=
  forall j, (1 <= j < length data)%nat -> nth j data 0 < nth (j - 1) data 0.

End MoreSeries.

(** Ninety samples 1, 2, ..., 90 and one older sample. *)
Definition ninety_closes {T : Type} `{Number T} : list (Z * T) :=
  stamped (map ofNat (seq 1 90)).

Definition one_older {T : Type} `{Number T} : list (Z * T) :=
  [((-1)%Z, ofNat 1000)].

Definition falling_Q : list (Z * Q) := stamped (map ofNat [9; 7; 4; 2]).

(** ** The annotation lines of the price chart *)

Section Chart.

Context {T : Type} `{NT : Number T}.

(** [formatCurrency] formats through the host's [Intl.NumberFormat]: it is
    taken as given. *)
Variable formatCurrency : scalar T -> string.

Record LineLabel : Type := mkLabel {
  content : string;
  enabled : bool;
  position : string
}.

Record AnnotationLine : Type := mkLine {
  line_type : string;
  yMin : scalar T;
  yMax : scalar T;
  borderColor : string;
  borderWidth : nat;
  label : LineLabel
}.

(** ToBoolean of a snapshot scalar: [null], 0 and NaN are falsy. *)
Definition scalar_truthy (s : scalar T) : bool :=
  match s with
  | Null => false
  | Num v => truthy v
  | PosInfinity => true
  | NegInfinity => true
  end.

(** The [annotations] object of [ChartComponent], as the list of its keys
    with their lines: [...(support && { line1: ... })] adds nothing when
    [support] is falsy. *)
Definition annotations (support resistance : scalar T)
  : list (string * AnnotationLine) :=
  (if scalar_truthy support
   then [("line1"%string,
          mkLine "line" support support "rgb(40, 167, 69, 0.7)" 2
            (mkLabel ("Support: " ++ formatCurrency support) true "start"))]
   else []) ++
  (if scalar_truthy resistance
   then [("line2"%string,
          mkLine "line" resistance resistance "rgb(220, 53, 69, 0.7)" 2
            (mkLabel ("Resistance: " ++ formatCurrency resistance) true
               "start"))]
   else []).

End Chart.

(** ** Favorites and selection (the App component) *)

Record Crypto : Type := mkCrypto {
  crypto_id : string;
  crypto_name : string;
  crypto_symbol : string;
  crypto_image : string
}.

(** [favorites.includes(id)]. *)
Definition includes (favorites : list string) (id : string) : bool :=
  existsb (fun x => String.eqb x id) favorites.

(** [favorites.filter(id => id !== idToRemove)]. *)
Definition without (idToRemove : string) (favorites : list string)
  : list string :=
  filter (fun id => negb (String.eqb id idToRemove)) favorites.

(** The part of the App state the favorites handlers read and write.
    [stored] is the entry ['cryptoFavorites'] of the local storage, held as
    the list its JSON text encodes; [None] when the entry is absent. *)
Record AppState : Type := mkApp {
  selectedCrypto : string;
  favorites : list string;
  stored : option (list string)
}.

(** The mount effect: [JSON.parse(localStorage.getItem(...) || '[]')]. *)
Definition savedFavorites (s : AppState) : list string :=
  match stored s with
  | Some l => l
  | None => []
  end.

Definition loadFavorites (s : AppState) : AppState :=
  mkApp (selectedCrypto s) (savedFavorites s) (stored s).

Definition handleToggleFavorite (s : AppState) : AppState :=
  let newFavorites :=
    if includes (favorites s) (selectedCrypto s)
    then without (selectedCrypto s) (favorites s)
    else favorites s ++ [selectedCrypto s] in
  mkApp (selectedCrypto s) newFavorites (Some newFavorites).

(** The [onRemove] handler given to [FavoritesList]. *)
Definition onRemove (idToRemove : string) (s : AppState) : AppState :=
  let newFavorites := without idToRemove (favorites s) in
  mkApp (selectedCrypto s) newFavorites (Some newFavorites).

Definition setSelectedCrypto (id : string) (s : AppState) : AppState :=
  mkApp id (favorites s) (stored s).

(** What the user can do once the component is mounted. *)
Inductive event : Type :=
| ToggleFavorite
| RemoveFavorite (id : string)
| SelectCrypto (id : string).

Definition handle (s : AppState) (e : event) : AppState :=
  match e with
  | ToggleFavorite => handleToggleFavorite s
  | RemoveFavorite id => onRemove id s
  | SelectCrypto id => setSelectedCrypto id s
  end.

Definition run (events : list event) (s : AppState) : AppState :=
  fold_left handle events s.

(** [l.filter(Boolean)] on the results of [find]: objects are truthy,
    [undefined] is not. *)
Fixpoint filterBoolean {A : Type} (l : list (option A)) : list A :=
  match l with
  | [] => []
  | Some a :: r => a :: filterBoolean r
  | None :: r => filterBoolean r
  end.

(** [favoriteDetails]. *)
Definition favoriteDetails (favorites : list string) (cryptoList : list Crypto)
  : list Crypto :=
  filterBoolean
    (map (fun id => find (fun c => String.eqb (crypto_id c) id) cryptoList)
       favorites).

Definition sample_state : AppState :=
  mkApp "bitcoin" ["ethereum"%string] (Some ["ethereum"%string]).

Definition sample_catalog : list Crypto :=
  [mkCrypto "bitcoin" "Bitcoin" "btc" "b.png";
   mkCrypto "ethereum" "Ethereum" "eth" "e.png"].

(** ** Loops and array reads *)

(** The rule for a [for] loop: an invariant indexed by the loop counter,
    kept by every iteration that runs, holds at the exit, and the loop
    completes normally. *)
Lemma for_range_inv {St : Type} (body : nat -> St -> option St)
  (P : nat -> St -> Prop) :
  forall n start s,
    P start s ->
    (forall i st, start <= i < start + n -> P i st ->
       exists st', body i st = Some st' /\ P (S i) st') ->
    exists s', for_range body start n s = Some s' /\ P (start + n) s'.
Proof.
  induction n as [|n IH]; intros start s Hs Hstep; simpl.
  - exists s. rewrite Nat.add_0_r. auto.
  - destruct (Hstep start s) as (s1 & Hb & Hs1); [lia | assumption |].
    rewrite Hb.
    destruct (IH (S start) s1 Hs1) as (s' & Hr & Hs').
    + intros i st Hi HP. apply Hstep; [lia | assumption].
    + exists s'. split; [assumption|].
      replace (start + S n) with (S start + n) by lia.
      assumption.
Qed.

Lemma nth_error_in_range {A : Type} (l : list A) (d : A) (i : nat) :
  i < length l -> nth_error l i = Some (nth i l d).
Proof. intros H. apply nth_error_nth'. assumption. Qed.

Lemma skipn_seq_nth {A : Type} (d : A) :
  forall (l : list A) (a : nat),
    skipn a l = map (fun j => nth j l d) (seq a (length l - a)).
Proof.
  induction l as [|v l IH]; intros a.
  - rewrite skipn_nil. reflexivity.
  - destruct a as [|a].
    + simpl skipn. simpl length. rewrite Nat.sub_0_r. simpl seq. cbn [map].
      f_equal. rewrite <- seq_shift, map_map. specialize (IH 0).
      rewrite Nat.sub_0_r in IH. simpl skipn in IH. exact IH.
    + simpl skipn. simpl length. simpl Nat.sub. rewrite IH.
      rewrite <- seq_shift, map_map. reflexivity.
Qed.

Lemma slice_length {A : Type} (l : list A) (a b : nat) :
  b <= length l -> length (slice l a b) = b - a.
Proof.
  intros H. unfold slice. rewrite length_firstn, length_skipn. lia.
Qed.

Section Shape.

Context {T : Type} `{NT : Number T}.

Lemma timestamp_in_range (prices : list (Z * T)) (i : nat) :
  i < length prices -> timestamp prices i = Some (timestampAt prices i).
Proof.
  intros H. unfold timestamp, timestampAt.
  rewrite (nth_error_in_range prices (0%Z, zero) H). reflexivity.
Qed.

Lemma timestamps_from (prices : list (Z * T)) (a : nat) :
  map (timestampAt prices) (seq a (length prices - a)) =
  map fst (skipn a prices).
Proof.
  rewrite (skipn_seq_nth (0%Z, zero) prices a), map_map. reflexivity.
Qed.

Lemma calculateSMA_closed (prices : list (Z * T)) (data : list T) (W : nat) :
  1 <= W -> length prices = length data ->
  calculateSMA prices data W =
  Some (map (smaPoint prices data W) (seq (W - 1) (length data - (W - 1)))).
Proof.
  intros HW Hlen. unfold calculateSMA.
  destruct (@for_range_inv _ (sma_body prices data W)
              (fun i sma => W - 1 <= i /\
                 sma = map (smaPoint prices data W) (seq (W - 1) (i - (W - 1))))
              (length data - (W - 1)) (W - 1) [])
    as (out & Hrun & _ & Hout).
  - split; [lia|]. rewrite Nat.sub_diag. reflexivity.
  - intros i sma Hi [Hge ->]. unfold sma_body.
    rewrite timestamp_in_range by lia. simpl bind.
    eexists. split; [reflexivity|]. split; [lia|].
    replace (S i - (W - 1)) with (S (i - (W - 1))) by lia.
    rewrite seq_S, map_app. cbn [map].
    replace (W - 1 + (i - (W - 1))) with i by lia.
    f_equal. f_equal. unfold smaPoint, mean. f_equal. f_equal. f_equal.
    rewrite slice_length by lia. lia.
  - rewrite Hrun, Hout. f_equal. f_equal. f_equal. lia.
Qed.

Lemma closeAt_closes (prices : list (Z * T)) (i : nat) :
  nth i (map snd prices) zero = closeAt prices i.
Proof. exact (map_nth snd prices (0%Z, zero) i). Qed.

Lemma firstn_snoc {A : Type} (d : A) :
  forall (l : list A) (n : nat),
    n < length l -> firstn (S n) l = firstn n l ++ [nth n l d].
Proof.
  induction l as [|v l IH]; intros n Hn; [simpl in Hn; lia|].
  destruct n as [|n]; [reflexivity|].
  cbn [firstn nth app]. f_equal. apply IH. simpl in Hn. lia.
Qed.

Lemma nth_of_skipn {A : Type} (d : A) (l : list A) (k n : nat) :
  nth n (skipn k l) d = nth (k + n) l d.
Proof.
  revert l. induction k as [|k IH]; intros l; [reflexivity|].
  destruct l as [|v l]; [destruct n; reflexivity|]. apply IH.
Qed.

(** The [reduce] of the source over a window of [n] values starting at index
    [k] adds the values at [k], [k + 1], ..., [k + n - 1], in that order,
    to 0. *)
Lemma sum_of_slice (data : list T) (k : nat) :
  forall n, k + n <= length data ->
    sum (slice data k (k + n)) =
    series_sum (fun j => nth (k + j) data zero) n.
Proof.
  unfold slice, sum. induction n as [|n IH]; intros Hn.
  - replace (k + 0 - k) with 0 by lia. reflexivity.
  - replace (k + S n - k) with (S n) by lia.
    rewrite (firstn_snoc zero) by (rewrite length_skipn; lia).
    rewrite fold_left_app. cbn [fold_left series_sum].
    replace (k + n - k) with n in IH by lia.
    rewrite IH by lia. rewrite nth_of_skipn. reflexivity.
Qed.

Lemma rsi_accumulate_in_range (data : list T) (i : nat) (st : rsi_state T) :
  1 <= i < length data ->
  rsi_accumulate data i st =
  Some (if gt0 (delta data i)
        then mkState (st_rsi st) (add (gains st) (delta data i)) (losses st)
        else mkState (st_rsi st) (gains st) (sub (losses st) (delta data i))).
Proof.
  intros Hi. unfold rsi_accumulate.
  rewrite (nth_error_in_range data zero (i := i)) by lia.
  rewrite (nth_error_in_range data zero (i := i - 1)) by lia.
  cbn [bind].
  change (sub (nth i data zero) (nth (i - 1) data zero)) with (delta data i).
  destruct (gt0 (delta data i)); reflexivity.
Qed.

(** The timestamps of the output of [calculateRSI] and the fact that the loop
    completes: the invariant on the emitted list only. *)
Lemma rsi_body_total (prices : list (Z * T)) (data : list T) (W i : nat)
  (st : rsi_state T) :
  1 <= W -> length prices = length data -> 1 <= i < length data ->
  exists st', rsi_body prices data W i st = Some st' /\
    map pt_x (st_rsi st') =
    map pt_x (st_rsi st) ++ (if W <=? i then [timestampAt prices i] else []).
Proof.
  intros HW Hlen Hi. unfold rsi_body.
  rewrite rsi_accumulate_in_range by lia. cbn [bind]. unfold rsi_emit.
  destruct (W <=? i) eqn:HWi.
  - apply Nat.leb_le in HWi.
    rewrite timestamp_in_range by lia.
    rewrite (nth_error_in_range data zero (i := i - W + 1)) by lia.
    rewrite (nth_error_in_range data zero (i := i - W)) by lia.
    cbn [bind].
    destruct (gt0 (delta data i));
      destruct (gt0 (sub (nth (i - W + 1) data zero) (nth (i - W) data zero)));
      eexists; (split; [reflexivity|]); simpl; rewrite map_app; reflexivity.
  - destruct (gt0 (delta data i));
      eexists; (split; [reflexivity|]); simpl; rewrite app_nil_r; reflexivity.
Qed.

Lemma calculateRSI_timestamps (prices : list (Z * T)) (data : list T)
  (W : nat) :
  1 <= W -> length prices = length data ->
  exists out, calculateRSI prices data W = Some out /\
    map pt_x out = map fst (skipn W prices).
Proof.
  intros HW Hlen. unfold calculateRSI, rsi_loop.
  destruct (@for_range_inv _ (rsi_body prices data W)
              (fun i st => map pt_x (st_rsi st) =
                 map (timestampAt prices) (seq W (i - W)))
              (length data - 1) 1 (mkState [] zero zero))
    as (st & Hrun & Hst).
  - replace (1 - W) with 0 by lia. reflexivity.
  - intros i st Hi HP.
    destruct (@rsi_body_total prices data W i st HW Hlen) as (st' & Hb & Hts);
      [lia|].
    exists st'. split; [assumption|]. rewrite Hts, HP.
    destruct (W <=? i) eqn:HWi.
    + apply Nat.leb_le in HWi.
      replace (S i - W) with (S (i - W)) by lia.
      rewrite seq_S, map_app. simpl. repeat f_equal. lia.
    + apply Nat.leb_gt in HWi. rewrite app_nil_r.
      replace (S i - W) with 0 by lia.
      replace (i - W) with 0 by lia. reflexivity.
  - rewrite Hrun. simpl. exists (st_rsi st). split; [reflexivity|].
    rewrite Hst, <- timestamps_from. f_equal. f_equal. lia.
Qed.

End Shape.

(** ** The engines on every input *)

Section Engines.

Context {T : Type} `{NT : Number T}.

Lemma nth_error_map_seq {A : Type} (f : nat -> A) (a n k : nat) :
  k < n -> nth_error (map f (seq a n)) k = Some (f (a + k)).
Proof.
  intros Hk. rewrite nth_error_map, nth_error_seq.
  apply Nat.ltb_lt in Hk. rewrite Hk. reflexivity.
Qed.

(** C3: for every price series of length [N] and every window [W >= 1],
    [calculateSMA] returns [max 0 (N - W + 1)] points; the [k]-th one carries
    the timestamp of the input sample at index [W - 1 + k] and the arithmetic
    mean of the [W] consecutive closing values that end at that index, the
    sum of the closing values at the indices [k], ..., [k + W - 1] divided by
    [W]; a window longer than the series gives the empty list, not an
    error. *)
Theorem sma_means_of_windows (prices : list (Z * T)) (W : nat) :
  1 <= W ->
  exists out,
    calculateSMA prices (map snd prices) W = Some out /\
    Z.of_nat (length out) =
      Z.max 0 (Z.of_nat (length prices) - Z.of_nat W + 1) /\
    (forall k, k < length out ->
       nth_error out k =
         Some (mkPoint (timestampAt prices (W - 1 + k))
                 (div (series_sum (fun j => closeAt prices (k + j)) W)
                    (ofNat W))) /\
       timestamp prices (W - 1 + k) = Some (timestampAt prices (W - 1 + k)) /\
       (forall j, j < W ->
          nth_error (map snd prices) (k + j) =
            Some (closeAt prices (k + j)))) /\
    (length prices < W -> out = []).
Proof.
  intros HW. set (data := map snd prices).
  assert (Hlen : length prices = length data)
    by (symmetry; apply length_map).
  rewrite (calculateSMA_closed prices data HW Hlen).
  eexists. split; [reflexivity|].
  rewrite length_map, length_seq, <- Hlen.
  split; [lia|]. split.
  - intros k Hk. split; [|split].
    + rewrite nth_error_map_seq by assumption. f_equal.
      unfold smaPoint, mean. f_equal.
      replace (W - 1 + k + 1 - W) with k by lia.
      replace (W - 1 + k + 1) with (k + W) by lia.
      rewrite slice_length by lia.
      replace (k + W - k) with W by lia. f_equal.
      rewrite sum_of_slice by lia. clear Hk.
      induction W as [|n IH]; [reflexivity|].
      cbn [series_sum]. unfold data at 2. rewrite closeAt_closes.
      f_equal. destruct n as [|n]; [reflexivity|]. apply IH. lia.
    + apply timestamp_in_range. lia.
    + intros j Hj. rewrite <- closeAt_closes.
      apply nth_error_in_range. rewrite length_map. lia.
  - intros Hlt. replace (length prices - (W - 1)) with 0 by lia. reflexivity.
Qed.

(** C8: for every series of length [N] and every window [W >= 1],
    [calculateRSI] emits one point per input sample from index [W] on, each
    with the timestamp of its sample, [max 0 (N - W)] points in all; a series
    shorter than [W + 1] gives the empty list. *)
Theorem rsi_one_point_per_sample_from_W (prices : list (Z * T)) (W : nat) :
  1 <= W ->
  exists out,
    calculateRSI prices (map snd prices) W = Some out /\
    map pt_x out = map fst (skipn W prices) /\
    Z.of_nat (length out) = Z.max 0 (Z.of_nat (length prices) - Z.of_nat W) /\
    (forall k, k < length prices - W ->
       option_map pt_x (nth_error out k) = timestamp prices (W + k)) /\
    (length prices < W + 1 -> out = []).
Proof.
  intros HW.
  destruct (@calculateRSI_timestamps _ _ prices (map snd prices) W HW)
    as (out & Hrun & Hts); [symmetry; apply length_map|].
  exists out. split; [assumption|]. split; [assumption|].
  assert (Hout : length out = length prices - W).
  { rewrite <- (length_map pt_x out), Hts, length_map, length_skipn.
    reflexivity. }
  split; [lia|]. split.
  - intros k Hk. rewrite <- nth_error_map, Hts, nth_error_map.
    rewrite nth_error_skipn. reflexivity.
  - intros Hlt. destruct out; [reflexivity|]. simpl in Hout. lia.
Qed.

Lemma useTechnicalAnalysis_nonempty (prices : list (Z * T)) :
  prices <> [] ->
  exists r,
    calculateRSI prices (map snd prices) 14 = Some r /\
    map pt_x r = map fst (skipn 14 prices) /\
    useTechnicalAnalysis (Some prices) =
    Some (mkSnapshot
            (map (smaPoint prices (map snd prices) 20)
               (seq 19 (length prices - 19)))
            (map (smaPoint prices (map snd prices) 50)
               (seq 49 (length prices - 49)))
            r
            (Math_min (slice_last 90 (map snd prices)))
            (Math_max (slice_last 90 (map snd prices)))).
Proof.
  intros Hne.
  assert (Hlen : length prices = length (map snd prices))
    by (symmetry; apply length_map).
  destruct (@calculateRSI_timestamps _ _ prices (map snd prices) 14)
    as (r & Hr & Hts); [lia | assumption |].
  exists r. split; [assumption|]. split; [assumption|].
  destruct prices as [|p prices]; [congruence|].
  unfold useTechnicalAnalysis.
  rewrite (@calculateSMA_closed _ _ (p :: prices) (map snd (p :: prices)) 20)
    by (lia || assumption).
  rewrite (@calculateSMA_closed _ _ (p :: prices) (map snd (p :: prices)) 50)
    by (lia || assumption).
  rewrite Hr. cbn [bind]. rewrite <- Hlen. reflexivity.
Qed.

Context `{ML : MathLib T}.

(** C9: every engine returns the empty list, and the hook null scalars, on an
    absent or empty input; no input makes the hook raise, and a series too
    short for an indicator gives that indicator the empty list. *)
Theorem engines_total_and_empty_on_empty_input :
  useTechnicalAnalysis (T := T) None = Some emptySnapshot /\
  useTechnicalAnalysis (T := T) (Some []) = Some emptySnapshot /\
  (forall W, 1 <= W -> calculateSMA (T := T) [] [] W = Some []) /\
  (forall W, calculateRSI (T := T) [] [] W = Some []) /\
  (forall days, useRiskReturnAnalysis (T := T) None days = []) /\
  (forall days, useRiskReturnAnalysis (T := T) (Some []) days = []) /\
  (forall prices : list (Z * T),
     exists snap,
       useTechnicalAnalysis (Some prices) = Some snap /\
       (length prices < 20 -> sma20 snap = []) /\
       (length prices < 50 -> sma50 snap = []) /\
       (length prices < 15 -> rsi snap = []) /\
       (prices = [] -> support snap = Null /\ resistance snap = Null)).
Proof.
  split; [reflexivity|]. split; [reflexivity|].
  split; [intros W HW; unfold calculateSMA; simpl; reflexivity|].
  split; [reflexivity|]. split; [reflexivity|]. split; [reflexivity|].
  intros prices. destruct prices as [|p prices].
  - exists emptySnapshot. repeat split; reflexivity.
  - destruct (@useTechnicalAnalysis_nonempty (p :: prices))
      as (r & _ & Hts & Hrun); [discriminate|].
    eexists. split; [exact Hrun|]. cbn [sma20 sma50 rsi support resistance].
    split; [|split; [|split]].
    + intros H. replace (length (p :: prices) - 19) with 0 by lia.
      reflexivity.
    + intros H. replace (length (p :: prices) - 49) with 0 by lia.
      reflexivity.
    + intros H. rewrite skipn_all2 in Hts by lia.
      destruct r; [reflexivity | discriminate].
    + discriminate.
Qed.

End Engines.

(** *** The shape theorems at a sample series *)

Lemma sma_means_of_windows_witness :
  1 <= 2 /\
  (exists out,
     calculateSMA five_closes_f (map snd five_closes_f) 2 = Some out /\
     Z.of_nat (length out) =
       Z.max 0 (Z.of_nat (length five_closes_f) - Z.of_nat 2 + 1) /\
     (forall k, k < length out ->
        nth_error out k =
          Some (mkPoint (timestampAt five_closes_f (2 - 1 + k))
                  (div (series_sum (fun j => closeAt five_closes_f (k + j)) 2)
                     (ofNat 2))) /\
        timestamp five_closes_f (2 - 1 + k) =
          Some (timestampAt five_closes_f (2 - 1 + k)) /\
        (forall j, j < 2 ->
           nth_error (map snd five_closes_f) (k + j) =
             Some (closeAt five_closes_f (k + j)))) /\
     (length five_closes_f < 2 -> out = [])).
Proof.
  split; [lia|].
  apply (@sma_means_of_windows float Number_float five_closes_f 2). lia.
Defined.

Lemma rsi_one_point_per_sample_from_W_witness :
  1 <= 2 /\
  (exists out,
     calculateRSI five_closes_Q (map snd five_closes_Q) 2 = Some out /\
     map pt_x out = map fst (skipn 2 five_closes_Q) /\
     Z.of_nat (length out) =
       Z.max 0 (Z.of_nat (length five_closes_Q) - Z.of_nat 2) /\
     (forall k, k < length five_closes_Q - 2 ->
        option_map pt_x (nth_error out k) =
        timestamp five_closes_Q (2 + k)) /\
     (length five_closes_Q < 2 + 1 -> out = [])).
Proof.
  split; [lia|].
  apply (@rsi_one_point_per_sample_from_W Q Number_Q five_closes_Q 2). lia.
Defined.

(** ** Exact arithmetic: the hooks over the rationals *)

Section ExactArithmetic.

Local Open Scope Q_scope.

(** The literals of the hooks, as rationals. *)
Ltac nums :=
  change (@zero Q Number_Q) with 0 in *;
  change (@one Q Number_Q) with 1 in *;
  change (@hundred Q Number_Q) with 100 in *;
  change (inject_Z 0) with 0 in *;
  change (@add Q Number_Q) with Qplus in *;
  change (@sub Q Number_Q) with Qminus in *;
  change (@div Q Number_Q) with Qdiv in *.

Lemma gt0_true (q : Q) : gt0 q = true <-> 0 < q.
Proof.
  simpl. rewrite negb_true_iff. split; intros H.
  - apply Qnot_le_lt. intros Hle. apply Qle_bool_iff in Hle. congruence.
  - destruct (Qle_bool q 0) eqn:E; [|reflexivity].
    apply Qle_bool_iff in E. lra.
Qed.

Lemma gt0_false (q : Q) : gt0 q = false <-> q <= 0.
Proof.
  simpl. rewrite negb_false_iff. apply Qle_bool_iff.
Qed.

Lemma truthy_false (q : Q) : truthy q = false <-> q == 0.
Proof.
  simpl. rewrite negb_false_iff. apply Qeq_bool_iff.
Qed.

Lemma truthy_true (q : Q) : truthy q = true <-> ~ q == 0.
Proof.
  rewrite <- truthy_false. destruct (truthy q); split; congruence.
Qed.

Lemma ofNat_pos (W : nat) : (1 <= W)%nat -> 0 < ofNat W.
Proof.
  intros H. simpl. change 0 with (inject_Z 0). rewrite <- Zlt_Qlt. lia.
Qed.

Lemma posPart_nonneg (c : Q) : 0 <= posPart c.
Proof.
  unfold posPart. destruct (gt0 c) eqn:E; [apply gt0_true in E|]; lra.
Qed.

Lemma negPart_nonneg (c : Q) : 0 <= negPart c.
Proof.
  unfold negPart. destruct (gt0 c) eqn:E; [|apply gt0_false in E]; lra.
Qed.

(** *** Sums *)

Lemma fold_add_acc (l : list Q) :
  forall a, fold_left Qplus l a == a + fold_left Qplus l 0.
Proof.
  induction l as [|v l IH]; intros a; simpl.
  - lra.
  - rewrite IH. rewrite (IH (0 + v)). lra.
Qed.

Lemma sum_nil : sum (@nil Q) == 0.
Proof. reflexivity. Qed.

Lemma sum_cons (v : Q) (l : list Q) : sum (v :: l) == v + sum l.
Proof.
  unfold sum. simpl. rewrite fold_add_acc. nums. lra.
Qed.

Lemma sum_app (l1 l2 : list Q) : sum (l1 ++ l2) == sum l1 + sum l2.
Proof.
  induction l1 as [|v l1 IH]; simpl.
  - rewrite sum_nil. lra.
  - rewrite !sum_cons, IH. lra.
Qed.

Lemma sum_nonneg (l : list Q) : Forall (fun v => 0 <= v) l -> 0 <= sum l.
Proof.
  induction 1 as [|v l Hv _ IH].
  - rewrite sum_nil. lra.
  - rewrite sum_cons. lra.
Qed.

Lemma gains_one (c : Q) : sum (filter gt0 [c]) == posPart c.
Proof.
  unfold posPart. cbn [filter]. destruct (gt0 c).
  - rewrite sum_cons, sum_nil. lra.
  - rewrite sum_nil. lra.
Qed.

Lemma isNegative_true (c : Q) : isNegative c = true <-> c < 0.
Proof.
  unfold isNegative. rewrite gt0_true. change (@zero Q _) with 0.
  simpl. split; intros; lra.
Qed.

Lemma losses_one (c : Q) : sum (map nabs (filter isNegative [c])) == negPart c.
Proof.
  unfold negPart. cbn [filter]. destruct (isNegative c) eqn:E.
  - apply isNegative_true in E. cbn [map]. rewrite sum_cons, sum_nil.
    simpl nabs. rewrite Qabs_neg by lra.
    destruct (gt0 c) eqn:E'; [apply gt0_true in E'|]; lra.
  - cbn [map]. rewrite sum_nil.
    destruct (gt0 c) eqn:E'; [lra|].
    apply gt0_false in E'.
    assert (~ c < 0) by (rewrite <- isNegative_true; congruence). lra.
Qed.

Lemma posSum_snoc (data : list Q) (a n : nat) :
  posSum data a (S n) == posSum data a n + posPart (delta data (a + n)).
Proof.
  unfold posSum. rewrite seq_S, map_app, filter_app, sum_app. cbn [map].
  rewrite gains_one. reflexivity.
Qed.

Lemma posSum_cons (data : list Q) (a n : nat) :
  posSum data a (S n) == posPart (delta data a) + posSum data (S a) n.
Proof.
  unfold posSum. change (seq a (S n)) with ([a] ++ seq (S a) n).
  rewrite map_app, filter_app, sum_app. cbn [map].
  rewrite gains_one. reflexivity.
Qed.

Lemma negSum_snoc (data : list Q) (a n : nat) :
  negSum data a (S n) == negSum data a n + negPart (delta data (a + n)).
Proof.
  unfold negSum.
  rewrite seq_S, map_app, filter_app, map_app, sum_app. cbn [map].
  rewrite losses_one. reflexivity.
Qed.

Lemma negSum_cons (data : list Q) (a n : nat) :
  negSum data a (S n) == negPart (delta data a) + negSum data (S a) n.
Proof.
  unfold negSum. change (seq a (S n)) with ([a] ++ seq (S a) n).
  rewrite map_app, filter_app, map_app, sum_app. cbn [map].
  rewrite losses_one. reflexivity.
Qed.

Lemma posSum_nonneg (data : list Q) (a n : nat) : 0 <= posSum data a n.
Proof.
  induction n as [|n IH].
  - unfold posSum. simpl. rewrite sum_nil. lra.
  - rewrite posSum_snoc. pose proof (posPart_nonneg (delta data (a + n))). lra.
Qed.

Lemma negSum_nonneg (data : list Q) (a n : nat) : 0 <= negSum data a n.
Proof.
  induction n as [|n IH].
  - unfold negSum. simpl. rewrite sum_nil. lra.
  - rewrite negSum_snoc. pose proof (negPart_nonneg (delta data (a + n))). lra.
Qed.

(** *** The emitted value *)

Lemma divisor_pos (l : Q) (W : nat) :
  (1 <= W)%nat -> 0 <= l -> 0 < js_or (div l (ofNat W)) one.
Proof.
  intros HW Hl. unfold js_or. pose proof (ofNat_pos HW) as HWq.
  destruct (truthy (div l (ofNat W))) eqn:E; nums; [|lra].
  apply truthy_true in E.
  assert (0 <= l / ofNat W) by (apply Qle_shift_div_l; lra).
  lra.
Qed.

Lemma rs_nonneg (g l : Q) (W : nat) :
  (1 <= W)%nat -> 0 <= g -> 0 <= l ->
  0 <= div (div g (ofNat W)) (js_or (div l (ofNat W)) one).
Proof.
  intros HW Hg Hl. pose proof (ofNat_pos HW) as HWq.
  pose proof (divisor_pos HW Hl) as Hd. nums.
  apply Qle_shift_div_l; [assumption|].
  rewrite Qmult_0_l. apply Qle_shift_div_l; lra.
Qed.

Lemma rsiValue_of_rs (g l : Q) (W : nat) :
  rsiValue g l W =
  100 - 100 / (1 + div (div g (ofNat W)) (js_or (div l (ofNat W)) one)).
Proof. reflexivity. Qed.

Lemma hundred_over (r : Q) : 0 <= r -> 0 < 100 / (1 + r) <= 100.
Proof.
  intros Hr. split.
  - apply Qlt_shift_div_l; lra.
  - apply Qle_shift_div_r; lra.
Qed.

(** In exact arithmetic the emitted value is at least 0 and below 100 as soon
    as the two accumulators are not negative. *)
Lemma rsiValue_bounds (g l : Q) (W : nat) :
  (1 <= W)%nat -> 0 <= g -> 0 <= l ->
  0 <= rsiValue g l W /\ rsiValue g l W < 100.
Proof.
  intros HW Hg Hl. rewrite rsiValue_of_rs.
  pose proof (hundred_over (rs_nonneg HW Hg Hl)). lra.
Qed.

Lemma js_or_compat (a a' b : Q) : a == a' -> js_or a b == js_or a' b.
Proof.
  intros H. unfold js_or.
  destruct (truthy a) eqn:E; destruct (truthy a') eqn:E'; try assumption;
    try reflexivity.
  - apply truthy_true in E. apply truthy_false in E'. rewrite H in E. tauto.
  - apply truthy_false in E. apply truthy_true in E'. rewrite H in E. tauto.
Qed.

Lemma rsiValue_compat (g g' l l' : Q) (W : nat) :
  g == g' -> l == l' -> rsiValue g l W == rsiValue g' l' W.
Proof.
  intros Hg Hl. rewrite !rsiValue_of_rs. nums.
  rewrite (js_or_compat (a := l / ofNat W) (a' := l' / ofNat W) 1)
    by (rewrite Hl; reflexivity).
  rewrite Hg. reflexivity.
Qed.

Lemma peq_refl (p : IndicatorPoint Q) : peq p p.
Proof. split; reflexivity. Qed.

Lemma Forall2_peq_snoc (out spec : list (IndicatorPoint Q))
  (p q : IndicatorPoint Q) :
  Forall2 peq out spec -> peq p q -> Forall2 peq (out ++ [p]) (spec ++ [q]).
Proof.
  intros H Hp. apply Forall2_app; [assumption|]. constructor; [assumption|].
  constructor.
Qed.

(** *** The sliding window *)

(** The delta of the current sample enters the sums. *)
Lemma accumulate_sums (r : list (IndicatorPoint Q)) (g l c Gs Ls : Q) :
  g == Gs -> l == Ls ->
  let st1 := if gt0 c then mkState r (add g c) l else mkState r g (sub l c) in
  gains st1 == Gs + posPart c /\ losses st1 == Ls + negPart c /\
  st_rsi st1 = r.
Proof.
  intros Hg Hl. unfold posPart, negPart.
  destruct (gt0 c); cbn; repeat split; nums; lra.
Qed.

(** The oldest delta of the window leaves the sums. *)
Lemma retire_sums (r : list (IndicatorPoint Q)) (g l c : Q) :
  let st2 := if gt0 c then mkState r (sub g c) l else mkState r g (add l c) in
  gains st2 == g - posPart c /\ losses st2 == l - negPart c /\
  st_rsi st2 = r.
Proof.
  unfold posPart, negPart.
  destruct (gt0 c); cbn; repeat split; nums; lra.
Qed.

Lemma rsi_inv_init (prices : list (Z * Q)) (data : list Q) (W : nat) :
  (1 <= W)%nat -> rsi_inv prices data W 1 (mkState [] zero zero).
Proof.
  intros HW. unfold rsi_inv, held, oldest. cbn [gains losses st_rsi].
  replace (1 - W)%nat with 0%nat by lia.
  replace (Nat.min (1 - 1) (W - 1)) with 0%nat by lia.
  repeat split; try reflexivity. constructor.
Qed.

Lemma rsi_step (prices : list (Z * Q)) (data : list Q) (W i : nat)
  (st : rsi_state Q) :
  (1 <= W)%nat -> length prices = length data ->
  (1 <= i < length data)%nat ->
  rsi_inv prices data W i st ->
  exists st', rsi_body prices data W i st = Some st' /\
              rsi_inv prices data W (S i) st'.
Proof.
  intros HW Hlen Hi (Hg & Hl & Hout). unfold rsi_body.
  rewrite rsi_accumulate_in_range by lia. cbn [bind]. unfold rsi_emit.
  destruct (accumulate_sums (st_rsi st) (delta data i) Hg Hl)
    as (Hg1 & Hl1 & Hr1).
  set (st1 := if gt0 (delta data i) then _ else _) in *.
  clearbody st1.
  assert (Hi' : (oldest W i + held W i = i)%nat) by (unfold oldest, held; lia).
  assert (Hg1' : gains st1 == posSum data (oldest W i) (S (held W i)))
    by (rewrite posSum_snoc, Hi'; exact Hg1).
  assert (Hl1' : losses st1 == negSum data (oldest W i) (S (held W i)))
    by (rewrite negSum_snoc, Hi'; exact Hl1).
  clear Hg1 Hl1. rename Hg1' into Hg1. rename Hl1' into Hl1.
  destruct (W <=? i)%nat eqn:HWi.
  - apply Nat.leb_le in HWi.
    rewrite timestamp_in_range by lia.
    rewrite (nth_error_in_range data zero (i := i - W + 1)) by lia.
    rewrite (nth_error_in_range data zero (i := i - W)) by lia.
    cbn [bind].
    assert (Hc : held W i = (W - 1)%nat) by (unfold held; lia).
    assert (Hlo : oldest W i = (i + 1 - W)%nat) by (unfold oldest; lia).
    rewrite Hc, Hlo in Hg1, Hl1.
    replace (S (W - 1)) with W in Hg1, Hl1 by lia.
    replace (sub (nth (i - W + 1) data zero) (nth (i - W) data zero))
      with (delta data (i + 1 - W)).
    2:{ unfold delta. replace (i + 1 - W - 1)%nat with (i - W)%nat by lia.
        replace (i + 1 - W)%nat with (i - W + 1)%nat by lia. reflexivity. }
    set (c := delta data (i + 1 - W)) in *.
    set (out := st_rsi st1 ++ _).
    exists (if gt0 c
            then mkState out (sub (gains st1) c) (losses st1)
            else mkState out (gains st1) (add (losses st1) c)).
    split; [destruct (gt0 c); reflexivity|].
    destruct (retire_sums out (gains st1) (losses st1) c) as (Hg2 & Hl2 & Hr2).
    unfold rsi_inv. rewrite Hg2, Hl2, Hr2. clear Hg2 Hl2 Hr2. subst c.
    assert (Hc' : held W (S i) = (W - 1)%nat) by (unfold held; lia).
    assert (Hlo' : oldest W (S i) = S (i + 1 - W)) by (unfold oldest; lia).
    rewrite Hc', Hlo'.
    replace W with (S (W - 1)) in Hg1 at 2 by lia.
    replace W with (S (W - 1)) in Hl1 at 2 by lia.
    rewrite posSum_cons in Hg1. rewrite negSum_cons in Hl1.
    split; [lra|]. split; [lra|].
    replace (S i - W)%nat with (S (i - W)) by lia.
    rewrite seq_S, map_app. cbn [map].
    replace (W + (i - W))%nat with i by lia.
    subst out. rewrite Hr1. apply Forall2_peq_snoc; [assumption|].
    split; [reflexivity|]. cbn [pt_y naivePoint].
    apply rsiValue_compat.
    + rewrite Hg1, <- posSum_cons. replace (S (W - 1)) with W by lia.
      reflexivity.
    + rewrite Hl1, <- negSum_cons. replace (S (W - 1)) with W by lia.
      reflexivity.
  - apply Nat.leb_gt in HWi.
    exists st1. split; [reflexivity|]. unfold rsi_inv.
    assert (Hc : S (held W i) = held W (S i)) by (unfold held; lia).
    assert (Hlo : oldest W i = oldest W (S i)) by (unfold oldest, held; lia).
    rewrite <- Hc, <- Hlo, Hr1.
    split; [assumption|]. split; [assumption|].
    replace (S i - W)%nat with 0%nat by lia.
    replace (i - W)%nat with 0%nat in Hout by lia. assumption.
Qed.

(** The loop of [calculateRSI] completes, and its output is the naive one. *)
Lemma calculateRSI_naive (prices : list (Z * Q)) (data : list Q) (W : nat) :
  (1 <= W)%nat -> length prices = length data ->
  exists out, calculateRSI prices data W = Some out /\
              Forall2 peq out (naiveRSI prices data W).
Proof.
  intros HW Hlen. unfold calculateRSI, rsi_loop.
  destruct (@for_range_inv _ (rsi_body prices data W) (rsi_inv prices data W)
              (length data - 1) 1 (mkState [] zero zero))
    as (st & Hrun & _ & _ & Hout).
  - apply rsi_inv_init. assumption.
  - intros i st Hi HP. apply rsi_step; try assumption. lia.
  - rewrite Hrun. exists (st_rsi st). split; [reflexivity|].
    unfold naiveRSI.
    replace (length data - W)%nat with (1 + (length data - 1) - W)%nat by lia.
    assumption.
Qed.

Lemma accumulatorsAt_naive (prices : list (Z * Q)) (data : list Q) (W i : nat) :
  (1 <= W)%nat -> length prices = length data ->
  (W <= i < length data)%nat ->
  exists g l, accumulatorsAt prices data W i = Some (g, l) /\
              g == naiveGains data W i /\ l == naiveLosses data W i.
Proof.
  intros HW Hlen Hi. unfold accumulatorsAt.
  destruct (@for_range_inv _ (rsi_body prices data W) (rsi_inv prices data W)
              (i - 1) 1 (mkState [] zero zero))
    as (st & Hrun & Hinv).
  - apply rsi_inv_init. assumption.
  - intros j st Hj HP. apply rsi_step; try assumption. lia.
  - rewrite Hrun. cbn [bind].
    replace (1 + (i - 1))%nat with i in Hinv by lia.
    destruct Hinv as (Hg & Hl & _).
    rewrite rsi_accumulate_in_range by lia. cbn [bind].
    assert (Hc : held W i = (W - 1)%nat) by (unfold held; lia).
    assert (Hlo : oldest W i = (i + 1 - W)%nat) by (unfold oldest; lia).
    rewrite Hc, Hlo in Hg, Hl.
    assert (HG : naiveGains data W i ==
                 posSum data (i + 1 - W) (W - 1) + posPart (delta data i)).
    { change (naiveGains data W i) with (posSum data (i + 1 - W) W).
      transitivity (posSum data (i + 1 - W) (S (W - 1))).
      - replace (S (W - 1)) with W by lia. reflexivity.
      - rewrite posSum_snoc.
        replace (i + 1 - W + (W - 1))%nat with i by lia. reflexivity. }
    assert (HL : naiveLosses data W i ==
                 negSum data (i + 1 - W) (W - 1) + negPart (delta data i)).
    { change (naiveLosses data W i) with (negSum data (i + 1 - W) W).
      transitivity (negSum data (i + 1 - W) (S (W - 1))).
      - replace (S (W - 1)) with W by lia. reflexivity.
      - rewrite negSum_snoc.
        replace (i + 1 - W + (W - 1))%nat with i by lia. reflexivity. }
    unfold posPart in HG. unfold negPart in HL.
    destruct (gt0 (delta data i)); do 2 eexists;
      (split; [reflexivity|]); cbn [gains losses]; nums; split; lra.
Qed.

(** A property of the values that does not tell equal rationals apart holds
    of the output as soon as it holds of the naive points. *)
Lemma naive_transfer (P : Q -> Prop) (out spec : list (IndicatorPoint Q)) :
  (forall a b, a == b -> P a -> P b) ->
  Forall2 peq out spec ->
  Forall (fun p => P (pt_y p)) spec ->
  Forall (fun p => P (pt_y p)) out.
Proof.
  intros HP H. induction H as [|p q out spec [_ Hy] _ IH]; intros Hs.
  - constructor.
  - inversion Hs; subst. constructor.
    + apply (HP (pt_y q)); [symmetry; assumption | assumption].
    + apply IH. assumption.
Qed.

Lemma naiveRSI_Forall (P : Q -> Prop) (prices : list (Z * Q)) (data : list Q)
  (W : nat) :
  (forall i, (W <= i < length data)%nat ->
     P (rsiValue (naiveGains data W i) (naiveLosses data W i) W)) ->
  Forall (fun p => P (pt_y p)) (naiveRSI prices data W).
Proof.
  intros H. unfold naiveRSI. apply Forall_forall. intros p Hp.
  apply in_map_iff in Hp. destruct Hp as (i & <- & Hi).
  apply in_seq in Hi. cbn [pt_y naivePoint]. apply H. lia.
Qed.

Lemma naive_pointwise (R : IndicatorPoint Q -> nat -> Prop)
  (f : nat -> IndicatorPoint Q) (out : list (IndicatorPoint Q)) :
  forall idx : list nat,
    Forall2 peq out (map f idx) ->
    (forall i p, In i idx -> peq p (f i) -> R p i) ->
    Forall2 R out idx.
Proof.
  intros idx. revert out. induction idx as [|i idx IH]; intros out H HR;
    inversion H; subst; constructor.
  - apply HR; [left; reflexivity | assumption].
  - apply IH; [assumption|]. intros j p Hj. apply HR. right. assumption.
Qed.

(** *** Series without losses, and flat series *)

Lemma over_one (x : Q) : x / 1 == x.
Proof. unfold Qdiv. change (/ 1) with 1. apply Qmult_1_r. Qed.

Lemma zero_over (W : nat) : 0 / ofNat W == 0.
Proof. unfold Qdiv. apply Qmult_0_l. Qed.

(** With no loss in the window the divisor is 1 and the relative strength is
    the average gain itself. *)
Lemma rsiValue_no_loss (g l : Q) (W : nat) :
  l == 0 -> rsiValue g l W == 100 - 100 / (1 + g / ofNat W).
Proof.
  intros Hl. rewrite rsiValue_of_rs. nums.
  assert (E : js_or (l / ofNat W) 1 = 1).
  { unfold js_or.
    assert (Hz : l / ofNat W == 0) by (rewrite Hl; apply zero_over).
    apply truthy_false in Hz. rewrite Hz. reflexivity. }
  rewrite E, over_one. reflexivity.
Qed.

Lemma increasing_sums (data : list Q) (a : nat) :
  increasing data -> (1 <= a)%nat ->
  forall n, (a + n <= length data)%nat ->
    posSum data a n == nth (a + n - 1) data 0 - nth (a - 1) data 0 /\
    negSum data a n == 0.
Proof.
  intros Hinc Ha. induction n as [|n IH]; intros Hn.
  - rewrite Nat.add_0_r. unfold posSum, negSum. simpl. rewrite sum_nil.
    split; lra.
  - destruct IH as [IHG IHL]; [lia|].
    rewrite posSum_snoc, negSum_snoc, IHG, IHL.
    assert (Hd : 0 < delta data (a + n)).
    { unfold delta. nums. pose proof (Hinc (a + n)%nat ltac:(lia)). lra. }
    unfold posPart, negPart. apply gt0_true in Hd. rewrite Hd.
    unfold delta. nums.
    replace (a + S n - 1)%nat with (a + n)%nat by lia. split; lra.
Qed.

Lemma flat_sums (data : list Q) (a : nat) :
  flat data -> (1 <= a)%nat ->
  forall n, (a + n <= length data)%nat ->
    posSum data a n == 0 /\ negSum data a n == 0.
Proof.
  intros Hflat Ha. induction n as [|n IH]; intros Hn.
  - unfold posSum, negSum. simpl. rewrite sum_nil. split; lra.
  - destruct IH as [IHG IHL]; [lia|].
    rewrite posSum_snoc, negSum_snoc, IHG, IHL.
    assert (Hd : delta data (a + n) == 0).
    { unfold delta. nums. pose proof (Hflat (a + n)%nat ltac:(lia)). lra. }
    unfold posPart, negPart.
    assert (Hgt : gt0 (delta data (a + n)) = false) by (apply gt0_false; lra).
    rewrite Hgt. split; lra.
Qed.

Lemma rsiValue_flat (g l : Q) (W : nat) :
  g == 0 -> l == 0 -> rsiValue g l W == 0.
Proof.
  intros Hg Hl. rewrite (rsiValue_no_loss g W Hl), Hg, zero_over. reflexivity.
Qed.

Lemma rsiValue_gain_only (g l : Q) (W : nat) :
  (1 <= W)%nat -> 0 < g -> l == 0 ->
  0 < rsiValue g l W /\ rsiValue g l W < 100.
Proof.
  intros HW Hg Hl. rewrite (rsiValue_no_loss g W Hl).
  pose proof (ofNat_pos HW) as HWq.
  assert (Hr : 0 < g / ofNat W) by (apply Qlt_shift_div_l; lra).
  assert (0 < 100 / (1 + g / ofNat W)) by (apply Qlt_shift_div_l; lra).
  assert (100 / (1 + g / ofNat W) < 100) by (apply Qlt_shift_div_r; lra).
  lra.
Qed.

(** *** The RSI engine in exact arithmetic *)

(** What the sliding update is written to compute.  In exact rational
    arithmetic, for every series and every window [W >= 1], at every emission
    index [i] in [W .. N-1] the [gains] and [losses] accumulators behind the
    emitted value are the sum of the positive deltas and the sum of the
    magnitudes of the negative deltas of the [W] deltas ending at [i], and
    the loop returns the list of points that the naive recomputation of both
    window sums gives. *)
Theorem rsi_incremental_is_naive (prices : list (Z * Q)) (W : nat) :
  (1 <= W)%nat ->
  (forall i, (W <= i < length prices)%nat ->
     exists g l,
       accumulatorsAt prices (map snd prices) W i = Some (g, l) /\
       g == naiveGains (map snd prices) W i /\
       l == naiveLosses (map snd prices) W i) /\
  (exists out,
     calculateRSI prices (map snd prices) W = Some out /\
     Forall2 peq out (naiveRSI prices (map snd prices) W)).
Proof.
  intros HW. split.
  - intros i Hi. apply accumulatorsAt_naive; rewrite ?length_map; auto.
  - apply calculateRSI_naive; rewrite ?length_map; auto.
Qed.

(** In exact rational arithmetic every value the RSI engine emits lies in the
    closed interval from 0 to 100. *)
Theorem rsi_between_0_and_100 (prices : list (Z * Q)) (W : nat) :
  (1 <= W)%nat ->
  exists out,
    calculateRSI prices (map snd prices) W = Some out /\
    Forall (fun p => 0 <= pt_y p /\ pt_y p <= 100) out.
Proof.
  intros HW.
  destruct (@calculateRSI_naive prices (map snd prices) W HW)
    as (out & Hrun & Hn); [rewrite length_map; reflexivity|].
  exists out. split; [assumption|].
  apply (naive_transfer (fun v => 0 <= v /\ v <= 100) (out := out)
           (spec := naiveRSI prices (map snd prices) W)); [| assumption |].
  - intros a b Hab. rewrite Hab. tauto.
  - apply (@naiveRSI_Forall (fun v => 0 <= v /\ v <= 100)). intros i Hi.
    destruct (@rsiValue_bounds (naiveGains (map snd prices) W i)
                (naiveLosses (map snd prices) W i) W HW);
      [apply posSum_nonneg | apply negSum_nonneg | split; lra].
Qed.

(** C10: in exact rational arithmetic every value the RSI engine emits is
    strictly below 100, whatever the series. *)
Theorem rsi_never_reaches_100 (prices : list (Z * Q)) (W : nat) :
  (1 <= W)%nat ->
  exists out,
    calculateRSI prices (map snd prices) W = Some out /\
    Forall (fun p => pt_y p < 100) out.
Proof.
  intros HW.
  destruct (@calculateRSI_naive prices (map snd prices) W HW)
    as (out & Hrun & Hn); [rewrite length_map; reflexivity|].
  exists out. split; [assumption|].
  apply (naive_transfer (fun v => v < 100) (out := out)
           (spec := naiveRSI prices (map snd prices) W)); [| assumption |].
  - intros a b Hab. rewrite Hab. tauto.
  - apply (@naiveRSI_Forall (fun v => v < 100)). intros i Hi.
    apply rsiValue_bounds;
      [assumption | apply posSum_nonneg | apply negSum_nonneg].
Qed.

(** C2 (as amended): for a strictly increasing series of length at least
    [W + 1] the divisor is replaced by 1 at every emission and the value
    emitted at index [i] is 100 - 100 / (1 + (data[i] - data[i - W]) / W),
    strictly between 0 and 100. *)
Theorem rsi_increasing_series (prices : list (Z * Q)) (W : nat) :
  (1 <= W)%nat -> (W + 1 <= length prices)%nat ->
  increasing (map snd prices) ->
  exists out,
    calculateRSI prices (map snd prices) W = Some out /\
    out <> [] /\
    Forall2
      (fun p i =>
         pt_y p ==
           100 - 100 / (1 + (nth i (map snd prices) 0
                              - nth (i - W) (map snd prices) 0) / ofNat W) /\
         0 < pt_y p /\ pt_y p < 100)
      out (seq W (length prices - W)).
Proof.
  intros HW HN Hinc. set (data := map snd prices) in *.
  assert (Hlen : length data = length prices) by apply length_map.
  destruct (@calculateRSI_naive prices data W HW) as (out & Hrun & Hn);
    [symmetry; assumption|].
  exists out. split; [assumption|]. split.
  - intros ->. apply Forall2_length in Hn. unfold naiveRSI in Hn.
    rewrite length_map, length_seq in Hn. simpl in Hn. lia.
  - unfold naiveRSI in Hn. rewrite Hlen in Hn.
    eapply naive_pointwise; [exact Hn|]. intros i p Hi [_ Hy].
    apply in_seq in Hi. cbn [pt_y naivePoint] in Hy.
    destruct (@increasing_sums data (i + 1 - W) Hinc ltac:(lia) W ltac:(lia))
      as [HG HL].
    replace (i + 1 - W + W - 1)%nat with i in HG by lia.
    replace (i + 1 - W - 1)%nat with (i - W)%nat in HG by lia.
    change (posSum data (i + 1 - W) W) with (naiveGains data W i) in HG.
    change (negSum data (i + 1 - W) W) with (naiveLosses data W i) in HL.
    assert (Hpos : 0 < naiveGains data W i).
    { change (naiveGains data W i) with (posSum data (i + 1 - W) W).
      replace W with (S (W - 1)) at 2 by lia. rewrite posSum_snoc.
      replace (i + 1 - W + (W - 1))%nat with i by lia.
      pose proof (posSum_nonneg data (i + 1 - W) (W - 1)).
      assert (Hd : 0 < delta data i).
      { unfold delta. nums. pose proof (Hinc i ltac:(lia)). lra. }
      unfold posPart. pose proof Hd as Hd'. apply gt0_true in Hd'.
      rewrite Hd'. lra. }
    rewrite Hy.
    destruct (@rsiValue_gain_only _ _ W HW Hpos HL) as [H1 H2].
    split; [|split; assumption].
    rewrite (rsiValue_no_loss _ W HL), HG. reflexivity.
Qed.

(** In exact rational arithmetic, for a perfectly flat series of length at
    least [W + 1] the RSI engine emits one point per sample from index [W]
    on, each with the value 0. *)
Theorem rsi_flat_series (prices : list (Z * Q)) (W : nat) :
  (1 <= W)%nat -> (W + 1 <= length prices)%nat ->
  flat (map snd prices) ->
  exists out,
    calculateRSI prices (map snd prices) W = Some out /\
    length out = (length prices - W)%nat /\
    out <> [] /\
    Forall (fun p => pt_y p == 0) out.
Proof.
  intros HW HN Hflat. set (data := map snd prices) in *.
  assert (Hlen : length data = length prices) by apply length_map.
  destruct (@calculateRSI_naive prices data W HW) as (out & Hrun & Hn);
    [symmetry; assumption|].
  exists out. split; [assumption|].
  assert (Hout : length out = (length prices - W)%nat).
  { apply Forall2_length in Hn. unfold naiveRSI in Hn.
    rewrite length_map, length_seq, Hlen in Hn. exact Hn. }
  split; [assumption|]. split.
  - intros ->. simpl in Hout. lia.
  - apply (naive_transfer (fun v => v == 0) (out := out)
             (spec := naiveRSI prices data W)); [| assumption |].
    + intros a b Hab. rewrite Hab. tauto.
    + apply (@naiveRSI_Forall (fun v => v == 0)). intros i Hi.
      destruct (@flat_sums data (i + 1 - W) Hflat ltac:(lia) W ltac:(lia))
        as [HG HL].
      apply rsiValue_flat; assumption.
Qed.

(** *** Support and resistance *)

Lemma Qmin_cases (a b : Q) : Qmin a b = a \/ Qmin a b = b.
Proof.
  unfold Qmin, GenericMinMax.gmin. destruct (a ?= b); auto.
Qed.

Lemma Qmax_cases (a b : Q) : Qmax a b = a \/ Qmax a b = b.
Proof.
  unfold Qmax, GenericMinMax.gmax. destruct (a ?= b); auto.
Qed.

Lemma fold_min_spec (l : list Q) :
  forall v, In (fold_left Qmin l v) (v :: l) /\
            Forall (fun w => fold_left Qmin l v <= w) (v :: l).
Proof.
  induction l as [|u l IH]; intros v; simpl fold_left.
  - split; [left; reflexivity|]. constructor; [apply Qle_refl | constructor].
  - destruct (IH (Qmin v u)) as [Hin Hall]. split.
    + destruct Hin as [Hin|Hin]; [|right; right; assumption].
      rewrite <- Hin. destruct (Qmin_cases v u) as [E|E]; rewrite E;
        [left | right; left]; reflexivity.
    + inversion Hall as [|m l' Hm Hl]; subst.
      pose proof (Q.le_min_l v u). pose proof (Q.le_min_r v u).
      constructor; [lra|]. constructor; [lra | assumption].
Qed.

Lemma fold_max_spec (l : list Q) :
  forall v, In (fold_left Qmax l v) (v :: l) /\
            Forall (fun w => w <= fold_left Qmax l v) (v :: l).
Proof.
  induction l as [|u l IH]; intros v; simpl fold_left.
  - split; [left; reflexivity|]. constructor; [apply Qle_refl | constructor].
  - destruct (IH (Qmax v u)) as [Hin Hall]. split.
    + destruct Hin as [Hin|Hin]; [|right; right; assumption].
      rewrite <- Hin. destruct (Qmax_cases v u) as [E|E]; rewrite E;
        [left | right; left]; reflexivity.
    + inversion Hall as [|m l' Hm Hl]; subst.
      pose proof (Q.le_max_l v u). pose proof (Q.le_max_r v u).
      constructor; [lra|]. constructor; [lra | assumption].
Qed.

(** C5: for a non-empty series the snapshot's support is the minimum and its
    resistance the maximum of the trailing window of the [min 90 N] most
    recent closing values; the series 5, 3, 8, 1, 9 gives support 1 and
    resistance 9; for an absent or empty series both are null. *)
Theorem support_resistance_of_last_90 :
  (forall prices : list (Z * Q), prices <> [] ->
     exists snap low high,
       useTechnicalAnalysis (Some prices) = Some snap /\
       support snap = Num low /\ resistance snap = Num high /\
       length (slice_last 90 (map snd prices)) = Nat.min 90 (length prices) /\
       (exists older,
          map snd prices = older ++ slice_last 90 (map snd prices)) /\
       In low (slice_last 90 (map snd prices)) /\
       In high (slice_last 90 (map snd prices)) /\
       Forall (fun v => low <= v /\ v <= high)
         (slice_last 90 (map snd prices))) /\
  (exists snap,
     useTechnicalAnalysis (Some five_closes_Q) = Some snap /\
     support snap = Num 1 /\ resistance snap = Num 9) /\
  (exists snap,
     useTechnicalAnalysis (Some five_closes_f) = Some snap /\
     support snap = Num 1%float /\ resistance snap = Num 9%float) /\
  (forall prices : option (list (Z * Q)),
     prices = None \/ prices = Some [] ->
     exists snap,
       useTechnicalAnalysis prices = Some snap /\
       support snap = Null /\ resistance snap = Null).
Proof.
  split; [|split; [|split]].
  - intros prices Hne.
    destruct (@useTechnicalAnalysis_nonempty Q _ prices Hne)
      as (r & _ & _ & Hrun).
    set (data := map snd prices) in *.
    set (recentPrices := slice_last 90 data) in *.
    assert (Hlen : length recentPrices = Nat.min 90 (length prices)).
    { unfold recentPrices, slice_last. rewrite length_skipn.
      unfold data. rewrite length_map. lia. }
    assert (Hpos : (1 <= length prices)%nat).
    { destruct prices; [congruence | simpl; lia]. }
    destruct recentPrices as [|v rest] eqn:E; [cbn [length] in Hlen; lia|].
    destruct (fold_min_spec rest v) as [Hmin_in Hmin].
    destruct (fold_max_spec rest v) as [Hmax_in Hmax].
    exists (mkSnapshot
              (map (smaPoint prices data 20) (seq 19 (length prices - 19)))
              (map (smaPoint prices data 50) (seq 49 (length prices - 49)))
              r (Math_min (v :: rest)) (Math_max (v :: rest))).
    exists (fold_left Qmin rest v), (fold_left Qmax rest v).
    split; [exact Hrun|]. split; [reflexivity|]. split; [reflexivity|].
    split; [exact Hlen|]. split.
    + exists (firstn (length data - 90) data). rewrite <- E.
      unfold recentPrices, slice_last. symmetry. apply firstn_skipn.
    + split; [exact Hmin_in|]. split; [exact Hmax_in|].
      apply Forall_forall. intros w Hw.
      rewrite Forall_forall in Hmin, Hmax. split; auto.
  - eexists. split; [vm_compute; reflexivity|]. split; reflexivity.
  - eexists. split; [vm_compute; reflexivity|]. split; reflexivity.
  - intros prices [-> | ->]; exists emptySnapshot; repeat split.
Qed.

(** *** The theorems at sample series *)

(** The engines evaluated in exact arithmetic. *)
Example sma_five_closes_exact :
  option_map (map (fun p => (pt_x p, Qred (pt_y p))))
    (calculateSMA five_closes_Q (map snd five_closes_Q) 2) =
  Some [(1%Z, 4); (2%Z, 11 # 2); (3%Z, 9 # 2); (4%Z, 5)].
Proof. vm_compute. reflexivity. Qed.

Example rsi_five_closes_exact :
  option_map (map (fun p => (pt_x p, Qred (pt_y p))))
    (calculateRSI five_closes_Q (map snd five_closes_Q) 2) =
  Some [(2%Z, 500 # 7); (3%Z, 125 # 3); (4%Z, 160 # 3)].
Proof. vm_compute. reflexivity. Qed.

Example rsi_dip_then_rise_exact :
  option_map (map (fun p => (pt_x p, Qred (pt_y p))))
    (calculateRSI dip_then_rise_Q (map snd dip_then_rise_Q) 14) =
  Some [(14%Z, 600 # 41); (15%Z, 1300 # 33); (16%Z, 100 # 101);
        (17%Z, 100 # 101)].
Proof. vm_compute. reflexivity. Qed.

Lemma rsi_incremental_is_naive_witness :
  (1 <= 2)%nat /\
  (exists out,
     calculateRSI five_closes_Q (map snd five_closes_Q) 2 = Some out /\
     Forall2 peq out (naiveRSI five_closes_Q (map snd five_closes_Q) 2)).
Proof.
  split; [lia|].
  destruct (@rsi_incremental_is_naive five_closes_Q 2 ltac:(lia)) as [_ H].
  exact H.
Defined.

Lemma rsi_between_0_and_100_witness :
  (1 <= 14)%nat /\
  (exists out,
     calculateRSI dip_then_rise_Q (map snd dip_then_rise_Q) 14 = Some out /\
     Forall (fun p => 0 <= pt_y p /\ pt_y p <= 100) out).
Proof.
  split; [lia|]. apply (@rsi_between_0_and_100 dip_then_rise_Q 14). lia.
Defined.

Lemma rsi_never_reaches_100_witness :
  (1 <= 14)%nat /\
  (exists out,
     calculateRSI steady_rise_Q (map snd steady_rise_Q) 14 = Some out /\
     Forall (fun p => pt_y p < 100) out).
Proof.
  split; [lia|]. apply (@rsi_never_reaches_100 steady_rise_Q 14). lia.
Defined.

Lemma steady_rise_increasing : increasing (map snd steady_rise_Q).
Proof.
  intros j Hj. change (length (map snd steady_rise_Q)) with 15%nat in Hj.
  do 15 (destruct j as [|j]; [try lia; vm_compute; reflexivity|]).
  lia.
Defined.

Lemma level_series_flat : flat (map snd level_series_Q).
Proof.
  intros j Hj. change (length (map snd level_series_Q)) with 4%nat in Hj.
  do 4 (destruct j as [|j]; [try lia; vm_compute; reflexivity|]).
  lia.
Defined.

Lemma rsi_increasing_series_witness :
  (1 <= 14)%nat /\
  (14 + 1 <= length steady_rise_Q)%nat /\
  increasing (map snd steady_rise_Q) /\
  (exists out,
     calculateRSI steady_rise_Q (map snd steady_rise_Q) 14 = Some out /\
     out <> [] /\
     Forall2
       (fun p i =>
          pt_y p ==
            100 - 100 / (1 + (nth i (map snd steady_rise_Q) 0
                               - nth (i - 14) (map snd steady_rise_Q) 0)
                              / ofNat 14) /\
          0 < pt_y p /\ pt_y p < 100)
       out (seq 14 (length steady_rise_Q - 14))).
Proof.
  split; [lia|]. split; [vm_compute; lia|].
  split; [exact steady_rise_increasing|].
  apply (@rsi_increasing_series steady_rise_Q 14);
    [lia | vm_compute; lia | exact steady_rise_increasing].
Defined.

Lemma rsi_flat_series_witness :
  (1 <= 2)%nat /\
  (2 + 1 <= length level_series_Q)%nat /\
  flat (map snd level_series_Q) /\
  (exists out,
     calculateRSI level_series_Q (map snd level_series_Q) 2 = Some out /\
     length out = (length level_series_Q - 2)%nat /\
     out <> [] /\
     Forall (fun p => pt_y p == 0) out).
Proof.
  split; [lia|]. split; [vm_compute; lia|].
  split; [exact level_series_flat|].
  apply (@rsi_flat_series level_series_Q 2);
    [lia | vm_compute; lia | exact level_series_flat].
Defined.

Lemma support_resistance_of_last_90_witness :
  five_closes_Q <> [] /\
  (exists snap low high,
     useTechnicalAnalysis (Some five_closes_Q) = Some snap /\
     support snap = Num low /\ resistance snap = Num high /\
     length (slice_last 90 (map snd five_closes_Q)) =
       Nat.min 90 (length five_closes_Q) /\
     (exists older,
        map snd five_closes_Q =
        older ++ slice_last 90 (map snd five_closes_Q)) /\
     In low (slice_last 90 (map snd five_closes_Q)) /\
     In high (slice_last 90 (map snd five_closes_Q)) /\
     Forall (fun v => low <= v /\ v <= high)
       (slice_last 90 (map snd five_closes_Q))).
Proof.
  split; [discriminate|].
  apply (proj1 support_resistance_of_last_90 five_closes_Q). discriminate.
Defined.

(** C2, the claim as stated, refuted: the series 1, 2, ..., 15 is strictly
    increasing and has 15 = 14 + 1 samples, and the engine emits 50 at its
    only emission, in binary64 and in exact arithmetic alike. *)
Lemma rsi_of_steady_rise_is_50 :
  calculateRSI steady_rise_f (map snd steady_rise_f) 14 =
    Some [mkPoint 14%Z 50%float] /\
  PrimFloat.eqb 50 100 = false /\
  increasing (map snd steady_rise_Q) /\
  (exists v,
     calculateRSI steady_rise_Q (map snd steady_rise_Q) 14 =
       Some [mkPoint 14%Z v] /\
     v == 50 /\ ~ v == 100).
Proof.
  split; [vm_compute; reflexivity|]. split; [vm_compute; reflexivity|].
  split; [exact steady_rise_increasing|].
  eexists. split; [vm_compute; reflexivity|].
  split; [vm_compute; reflexivity|].
  intros H. vm_compute in H. discriminate.
Qed.

End ExactArithmetic.

(** ** The engines on binary64 numbers *)

Example sma_five_closes_binary64 :
  calculateSMA five_closes_f (map snd five_closes_f) 2 =
  Some [mkPoint 1%Z 4%float; mkPoint 2%Z 5.5%float; mkPoint 3%Z 4.5%float;
        mkPoint 4%Z 5%float].
Proof. vm_compute. reflexivity. Qed.

(** A flat series gives the value 0 on binary64 numbers too. *)
Example rsi_level_series_binary64 :
  calculateRSI (T := float) level_series (map snd level_series) 2 =
  Some [mkPoint 2%Z 0%float; mkPoint 3%Z 0%float].
Proof. vm_compute. reflexivity. Qed.

(** *** Flat series *)

Section FlatSeries.

(** What the loop needs of the numbers 0, 1, 100 and [W] on a flat series.
    Nothing is asked of the quotient 0 / 0. *)
Context {T : Type} `{NT : Number T}.

Variable W : nat.

Hypothesis zero_not_positive : gt0 zero = false.
Hypothesis zero_falsy : truthy zero = false.
Hypothesis zero_minus_zero : sub zero zero = zero.
Hypothesis zero_plus_zero : add zero zero = zero.
Hypothesis zero_over_W : div zero (ofNat W) = zero.
Hypothesis zero_over_one : div zero one = zero.
Hypothesis one_plus_zero : add one zero = one.
Hypothesis hundred_over_one : div hundred one = hundred.
Hypothesis hundred_minus_hundred : sub hundred hundred = zero.

(** With both sums at 0 the average loss is 0, the divisor is replaced by 1
    and the value is 100 - 100 / (1 + 0 / 1). *)
Lemma rsiValue_without_moves : rsiValue zero zero W = zero.
Proof.
  unfold rsiValue, js_or. cbv zeta.
  rewrite zero_over_W, zero_falsy, zero_over_one, one_plus_zero,
    hundred_over_one.
  exact hundred_minus_hundred.
Qed.

Lemma rsi_body_flat (prices : list (Z * T)) (data : list T) (i : nat)
  (st : rsi_state T) :
  1 <= W -> length prices = length data -> 1 <= i < length data ->
  (forall j, 1 <= j < length data -> delta data j = zero) ->
  gains st = zero -> losses st = zero ->
  exists st',
    rsi_body prices data W i st = Some st' /\
    gains st' = zero /\ losses st' = zero /\
    st_rsi st' =
      st_rsi st ++
      (if W <=? i then [mkPoint (timestampAt prices i) zero] else []).
Proof.
  intros HW Hlen Hi Hflat Hg Hl. unfold rsi_body.
  rewrite rsi_accumulate_in_range by lia.
  rewrite (Hflat i) by lia. rewrite zero_not_positive. cbn [bind].
  rewrite Hl, zero_minus_zero. unfold rsi_emit.
  cbn [gains losses st_rsi].
  destruct (W <=? i) eqn:HWi.
  - apply Nat.leb_le in HWi. rewrite Hg, rsiValue_without_moves.
    rewrite timestamp_in_range by lia.
    rewrite (nth_error_in_range data zero (i := i - W + 1)) by lia.
    rewrite (nth_error_in_range data zero (i := i - W)) by lia.
    cbn [bind].
    assert (Hd : sub (nth (i - W + 1) data zero) (nth (i - W) data zero)
                 = zero).
    { pose proof (Hflat (i - W + 1) ltac:(lia)) as Hd. unfold delta in Hd.
      replace (i - W + 1 - 1) with (i - W) in Hd by lia. exact Hd. }
    rewrite Hd, zero_not_positive, zero_plus_zero.
    eexists. split; [reflexivity|]. cbn [gains losses st_rsi]. auto.
  - eexists. split; [reflexivity|]. cbn [gains losses st_rsi].
    rewrite app_nil_r. auto.
Qed.

(** The whole output on a flat series: one point per sample from index [W]
    on, each with the value 0. *)
Lemma calculateRSI_flat (prices : list (Z * T)) :
  1 <= W ->
  (forall j, 1 <= j < length prices -> delta (map snd prices) j = zero) ->
  calculateRSI prices (map snd prices) W =
  Some (map (fun i => mkPoint (timestampAt prices i) zero)
          (seq W (length prices - W))).
Proof.
  intros HW Hflat. set (data := map snd prices) in *.
  assert (Hlen : length prices = length data)
    by (symmetry; apply length_map).
  unfold calculateRSI, rsi_loop.
  destruct (@for_range_inv _ (rsi_body prices data W)
              (fun i st =>
                 gains st = zero /\ losses st = zero /\
                 st_rsi st =
                   map (fun i => mkPoint (timestampAt prices i) zero)
                     (seq W (i - W)))
              (length data - 1) 1 (mkState [] zero zero))
    as (st & Hrun & _ & _ & Hst).
  - replace (1 - W) with 0 by lia. auto.
  - intros i st Hi (Hg & Hl & Hout).
    destruct (@rsi_body_flat prices data i st HW Hlen) as
      (st' & Hb & Hg' & Hl' & Hout');
      [lia | intros j Hj; apply Hflat; lia | assumption | assumption |].
    exists st'. split; [assumption|]. split; [assumption|].
    split; [assumption|]. rewrite Hout', Hout.
    destruct (W <=? i) eqn:HWi.
    + apply Nat.leb_le in HWi.
      replace (S i - W) with (S (i - W)) by lia.
      rewrite seq_S, map_app. cbn [map]. repeat f_equal. lia.
    + apply Nat.leb_gt in HWi. rewrite app_nil_r.
      replace (S i - W) with 0 by lia.
      replace (i - W) with 0 by lia. reflexivity.
  - rewrite Hrun. cbn [option_map]. rewrite Hst, <- Hlen.
    do 3 f_equal. lia.
Qed.

End FlatSeries.

(** Two facts of binary64 arithmetic: 0 divided by a positive number is 0,
    and a finite number minus itself is 0. *)
Lemma zero_over_positive (y : float) :
  PrimFloat.ltb 0 y = true -> PrimFloat.div 0 y = 0%float.
Proof.
  intros H. apply Prim2SF_inj. rewrite FloatAxioms.div_spec.
  rewrite FloatAxioms.ltb_spec in H.
  change (Prim2SF 0) with (S754_zero false) in *.
  destruct (Prim2SF y) as [s|s| |s m e]; try discriminate H;
    destruct s; (discriminate H || reflexivity).
Qed.

Lemma finite_minus_itself (x : float) :
  PrimFloat.is_finite x = true -> PrimFloat.sub x x = 0%float.
Proof.
  intros H. apply Prim2SF_inj. rewrite FloatAxioms.sub_spec.
  change (Prim2SF 0) with (S754_zero false).
  unfold is_finite, is_nan, is_infinity in H.
  rewrite !FloatAxioms.eqb_spec, FloatAxioms.abs_spec in H.
  destruct (Prim2SF x) as [s|s| |s m e].
  - destruct s; reflexivity.
  - destruct s; discriminate H.
  - discriminate H.
  - unfold SF64sub, SFsub. rewrite Z.sub_diag. reflexivity.
Qed.

(** A series of finite closing values in which every sample repeats the one
    before has all its deltas at 0. *)
Lemma repeated_closes_have_no_delta (data : list float) :
  Forall (fun v => PrimFloat.is_finite v = true) data ->
  (forall j, 1 <= j < length data ->
     nth j data 0%float = nth (j - 1) data 0%float) ->
  forall j, 1 <= j < length data -> delta data j = 0%float.
Proof.
  intros Hfin Hsame j Hj. unfold delta.
  change (@zero float Number_float) with 0%float.
  rewrite (Hsame j Hj). apply finite_minus_itself.
  rewrite Forall_forall in Hfin. apply Hfin, nth_In. lia.
Qed.

(** C7: on binary64 numbers, for a perfectly flat series (every delta between
    consecutive samples is 0) of length at least [W + 1], the RSI engine emits
    one point per sample from index [W] on, each with the value 0.  The
    average loss is 0 and the guard replaces the divisor by 1; the unguarded
    quotient of the two averages is NaN. *)
Theorem rsi_flat_series_binary64 (prices : list (Z * float)) (W : nat) :
  1 <= W -> W + 1 <= length prices ->
  PrimFloat.ltb 0 (ofNat W) = true ->
  (forall j, 1 <= j < length prices ->
     delta (map snd prices) j = 0%float) ->
  exists out,
    calculateRSI prices (map snd prices) W = Some out /\
    map pt_x out = map fst (skipn W prices) /\
    length out = length prices - W /\
    out <> [] /\
    Forall (fun p => pt_y p = 0%float) out /\
    js_or (PrimFloat.div 0 (ofNat W)) 1%float = 1%float /\
    PrimFloat.is_nan
      (PrimFloat.div (PrimFloat.div 0 (ofNat W)) (PrimFloat.div 0 (ofNat W)))
      = true.
Proof.
  intros HW HN HWpos Hflat.
  pose proof (zero_over_positive HWpos) as HzW.
  pose proof (@calculateRSI_flat float Number_float W
                eq_refl eq_refl eq_refl eq_refl HzW eq_refl eq_refl eq_refl
                eq_refl prices HW Hflat) as Hrun.
  eexists. split; [exact Hrun|].
  split.
  { rewrite map_map. cbn [pt_x]. apply timestamps_from. }
  split; [rewrite length_map, length_seq; reflexivity|].
  split.
  { intros E. apply (f_equal (@length _)) in E.
    rewrite length_map, length_seq in E. simpl in E. lia. }
  split.
  { apply Forall_forall. intros p Hp. apply in_map_iff in Hp.
    destruct Hp as (i & <- & _). reflexivity. }
  rewrite HzW. split; reflexivity.
Qed.

Lemma flat_series_f_deltas :
  forall j, 1 <= j < length flat_series_f ->
    delta (map snd flat_series_f) j = 0%float.
Proof.
  change (length flat_series_f) with (length (map snd flat_series_f)).
  apply repeated_closes_have_no_delta.
  - vm_compute. repeat constructor.
  - intros j Hj. change (length (map snd flat_series_f)) with 16 in Hj.
    do 16 (destruct j as [|j]; [try lia; vm_compute; reflexivity|]).
    lia.
Defined.

Lemma rsi_flat_series_binary64_witness :
  1 <= 14 /\ 14 + 1 <= length flat_series_f /\
  PrimFloat.ltb 0 (ofNat 14) = true /\
  (forall j, 1 <= j < length flat_series_f ->
     delta (map snd flat_series_f) j = 0%float) /\
  (exists out,
     calculateRSI flat_series_f (map snd flat_series_f) 14 = Some out /\
     out <> [] /\
     Forall (fun p => pt_y p = 0%float) out).
Proof.
  split; [lia|]. split; [vm_compute; lia|]. split; [reflexivity|].
  split; [exact flat_series_f_deltas|].
  destruct (@rsi_flat_series_binary64 flat_series_f 14 ltac:(lia)
              ltac:(vm_compute; lia) eq_refl flat_series_f_deltas)
    as (out & Hrun & _ & _ & Hne & Hall & _).
  exists out. auto.
Defined.

(** C1, the engine on binary64 numbers at a series where it departs from the
    claim: on the prices 1.00, 0.50, 0.30, 0.31, ..., 0.45 with the window 14,
    at the emission of sample 16 the [losses] accumulator of the loop is
    negative where the window holds no negative delta (its recomputed sum is
    0), and the loop emits values above 100 where the naive recomputation
    gives values below 1.  The running sums keep the rounding residue of the
    deltas added and taken out, and the guard on the divisor tests for exactly
    0. *)
Lemma rsi_incremental_drifts_in_binary64 :
  (exists g l,
     accumulatorsAt dip_then_rise_f (map snd dip_then_rise_f) 14 16 =
       Some (g, l) /\
     PrimFloat.ltb l 0 = true /\
     PrimFloat.eqb (naiveLosses (map snd dip_then_rise_f) 14 16) 0 =
       true) /\
  option_map (map (fun p => PrimFloat.ltb 100 (pt_y p)))
    (calculateRSI dip_then_rise_f (map snd dip_then_rise_f) 14) =
    Some [false; false; true; true] /\
  map (fun p => PrimFloat.ltb (pt_y p) 1)
    (naiveRSI dip_then_rise_f (map snd dip_then_rise_f) 14) =
    [false; false; true; true] /\
  calculateRSI dip_then_rise_f (map snd dip_then_rise_f) 14 <>
    Some (naiveRSI dip_then_rise_f (map snd dip_then_rise_f) 14).
Proof.
  split.
  - eexists. eexists. split; [vm_compute; reflexivity|].
    split; vm_compute; reflexivity.
  - split; [vm_compute; reflexivity|]. split; [vm_compute; reflexivity|].
    intros H.
    apply (f_equal (option_map (map (fun p => PrimFloat.ltb 100 (pt_y p)))))
      in H.
    vm_compute in H. discriminate.
Qed.

(** C6, the engine on binary64 numbers at two series where it leaves the
    interval from 0 to 100.  On the prices 1.00, 0.50, 0.30, 0.31, ..., 0.45
    the RSI series of the hook (window 14) holds, at its third point, a value
    greater than 100.  On the prices 0.39, 0.23, 0.30, 0.25, 0.46 followed by
    seventeen samples at 0.42 its last three values are minus infinity: the
    window is flat there, both running sums hold a residue of opposite signs
    and the same magnitude, and the divisor guard does not apply.  In exact
    arithmetic the same points are 100/101 and 0. *)
Lemma rsi_outside_0_100_in_binary64 :
  (exists snap p,
     useTechnicalAnalysis (Some dip_then_rise_f) = Some snap /\
     nth_error (rsi snap) 2 = Some p /\
     PrimFloat.ltb 100 (pt_y p) = true) /\
  (exists snap,
     useTechnicalAnalysis (Some moves_then_flat_f) = Some snap /\
     map pt_y (skipn 5 (rsi snap)) =
       [neg_infinity; neg_infinity; neg_infinity] /\
     PrimFloat.ltb neg_infinity 0 = true) /\
  (exists g l,
     accumulatorsAt moves_then_flat_f (map snd moves_then_flat_f) 14 19 =
       Some (g, l) /\
     PrimFloat.ltb 0 g = true /\ l = PrimFloat.opp g /\
     naiveGains (map snd moves_then_flat_f) 14 19 = 0%float /\
     naiveLosses (map snd moves_then_flat_f) 14 19 = 0%float) /\
  option_map (map (fun p => (pt_x p, Qred (pt_y p))))
    (calculateRSI moves_then_flat_Q (map snd moves_then_flat_Q) 14) =
  Some [(14%Z, 2800 # 53); (15%Z, 2800 # 37); (16%Z, 70); (17%Z, 84);
        (18%Z, 0); (19%Z, 0); (20%Z, 0); (21%Z, 0)]%Q.
Proof.
  split; [|split; [|split]].
  - eexists. eexists. split; [vm_compute; reflexivity|].
    split; [reflexivity|]. vm_compute. reflexivity.
  - eexists. split; [vm_compute; reflexivity|]. split; reflexivity.
  - eexists. eexists. split; [vm_compute; reflexivity|].
    repeat split; vm_compute; reflexivity.
  - vm_compute. reflexivity.
Qed.

(** ** The projector on every number system *)

Section ProjectorFormula.

Context {T : Type} `{NT : Number T} `{ML : MathLib T}.

(** An absent field: the quotient is NaN, which is falsy, and [|| 0] gives
    0. *)
Lemma dailyReturn_absent (coin : CryptoStats T) :
  price_change_percentage_24h_in_currency coin = None ->
  dailyReturn coin = Val zero.
Proof.
  intros E. unfold dailyReturn. rewrite E. reflexivity.
Qed.

Lemma dailyReturn_present (coin : CryptoStats T) (change24h : T) :
  price_change_percentage_24h_in_currency coin = Some change24h ->
  dailyReturn coin = Val (js_or (div change24h (ofNat 100)) zero).
Proof.
  intros E. unfold dailyReturn. rewrite E.
  cbn [toNumber div ofNat Number_jsnumber lift2]. unfold js_or.
  cbn [truthy Number_jsnumber holds].
  destruct (truthy (div change24h (ofNat 100))); reflexivity.
Qed.

Lemma projectCoin_of_dailyReturn (coin : CryptoStats T) (r : T) :
  dailyReturn coin = Val r ->
  projectCoin coin =
  mkRR (Val (mul (nabs r) (msqrt (ofNat 365))))
    (Val (sub (mpow (add one r) 365) one)) (name coin) (image coin).
Proof.
  intros E. unfold projectCoin. rewrite E. reflexivity.
Qed.

(** The point of one asset: the daily return is the quotient when the
    quotient is truthy and 0 otherwise, and both coordinates are numbers
    computed from it by the two formulas. *)
Lemma projectCoin_formula (coin : CryptoStats T) :
  exists dailyReturn : T,
    match price_change_percentage_24h_in_currency coin with
    | Some change24h =>
        (truthy (div change24h (ofNat 100)) = true ->
         dailyReturn = div change24h (ofNat 100)) /\
        (truthy (div change24h (ofNat 100)) = false -> dailyReturn = zero)
    | None => dailyReturn = zero
    end /\
    projectCoin coin =
    mkRR (Val (mul (nabs dailyReturn) (msqrt (ofNat 365))))
      (Val (sub (mpow (add one dailyReturn) 365) one))
      (name coin) (image coin).
Proof.
  destruct (price_change_percentage_24h_in_currency coin) as [c|] eqn:E.
  - exists (js_or (div c (ofNat 100)) zero). split.
    + unfold js_or. destruct (truthy (div c (ofNat 100)));
        split; intros H; (reflexivity || discriminate).
    + apply projectCoin_of_dailyReturn, dailyReturn_present, E.
  - exists zero. split; [reflexivity|].
    apply projectCoin_of_dailyReturn, dailyReturn_absent, E.
Qed.

Lemma useRiskReturnAnalysis_map (marketData : list (CryptoStats T))
  (days : nat) :
  useRiskReturnAnalysis (Some marketData) days = map projectCoin marketData.
Proof. destruct marketData; reflexivity. Qed.

End ProjectorFormula.

(** ** The projector on real and on binary64 numbers *)

Module RealModel.

Import Reals Lra.
Local Open Scope R_scope.

Lemma ofNat_100 : ofNat 100 = 100.
Proof.
  change (ofNat 100) with (INR 100). rewrite INR_IZR_INZ. reflexivity.
Qed.

Lemma ofNat_365 : ofNat 365 = 365.
Proof.
  change (ofNat 365) with (INR 365). rewrite INR_IZR_INZ. reflexivity.
Qed.

Lemma ofNat_10 : ofNat 10 = 10.
Proof.
  change (ofNat 10) with (INR 10). rewrite INR_IZR_INZ. reflexivity.
Qed.

Lemma js_or_zero (a : R) : js_or a zero = a.
Proof.
  unfold js_or. cbn [truthy Number_R].
  destruct (Req_dec_T a 0) as [E|E]; [rewrite E|]; reflexivity.
Qed.

(** The point of one asset on real numbers, as the specification writes
    it. *)
Lemma projectCoin_real (coin : CryptoStats R) :
  projectCoin coin =
  let dailyReturn :=
    match price_change_percentage_24h_in_currency coin with
    | Some change24h => change24h / 100
    | None => 0
    end in
  mkRR (Val (Rabs dailyReturn * sqrt 365)) (Val ((1 + dailyReturn) ^ 365 - 1))
    (name coin) (image coin).
Proof.
  destruct (price_change_percentage_24h_in_currency coin) as [c|] eqn:E;
    cbv zeta.
  - rewrite (projectCoin_of_dailyReturn coin (dailyReturn_present coin E)).
    rewrite js_or_zero, ofNat_100, ofNat_365. reflexivity.
  - rewrite (projectCoin_of_dailyReturn coin (dailyReturn_absent coin E)).
    rewrite ofNat_365. reflexivity.
Qed.

(** C4: the projector returns one point per asset, in the order of the input
    and without dropping any.  On every number system, binary64 included, the
    point of an asset has the asset's name and image, the risk
    |dailyReturn| * sqrt 365 and the return (1 + dailyReturn)^365 - 1, computed
    with the operations of that number system, where dailyReturn is
    change24h / 100, and 0 when the field is absent or the quotient is falsy;
    no coordinate is NaN through an absent field.  On real numbers dailyReturn
    is change24h / 100 whenever the field is present.  A change of 10 gives,
    on binary64, 0.1 * sqrt 365 and 1.1 ** 365 - 1 on the binary64 numbers 0.1
    and 1.1, whatever the engine's exponentiation, and on real numbers
    0.10 * sqrt 365 and 1.10^365 - 1. *)
Theorem risk_return_projection :
  (forall (T : Type) (NT : Number T) (ML : MathLib T)
          (marketData : list (CryptoStats T)) (days : nat),
     Forall2
       (fun coin p =>
          exists dailyReturn : T,
            match price_change_percentage_24h_in_currency coin with
            | Some change24h =>
                (truthy (div change24h (ofNat 100)) = true ->
                 dailyReturn = div change24h (ofNat 100)) /\
                (truthy (div change24h (ofNat 100)) = false ->
                 dailyReturn = zero)
            | None => dailyReturn = zero
            end /\
            p = mkRR (Val (mul (nabs dailyReturn) (msqrt (ofNat 365))))
                  (Val (sub (mpow (add one dailyReturn) 365) one))
                  (name coin) (image coin))
       marketData (useRiskReturnAnalysis (Some marketData) days)) /\
  (forall (marketData : list (CryptoStats R)) (days : nat),
     useRiskReturnAnalysis (Some marketData) days =
     map (fun coin =>
            let dailyReturn :=
              match price_change_percentage_24h_in_currency coin with
              | Some change24h => change24h / 100
              | None => 0
              end in
            mkRR (Val (Rabs dailyReturn * sqrt 365))
              (Val ((1 + dailyReturn) ^ 365 - 1))
              (name coin) (image coin))
         marketData) /\
  (forall (pow : float -> nat -> float) (days : nat),
     @useRiskReturnAnalysis float Number_float (binary64_math pow)
       (Some [ten_percent; no_change_field]) days =
     [mkRR (Val (PrimFloat.mul one_tenth (PrimFloat.sqrt 365)))
        (Val (PrimFloat.sub (pow eleven_tenths 365%nat) 1))
        "Bitcoin" "bitcoin.png";
      mkRR (Val (PrimFloat.mul 0 (PrimFloat.sqrt 365)))
        (Val (PrimFloat.sub (pow 1%float 365%nat) 1))
        "Tether" "tether.png"]) /\
  (forall days : nat,
     useRiskReturnAnalysis (T := R) (Some [ten_percent]) days =
     [mkRR (Val (0.10 * sqrt 365)) (Val (1.10 ^ 365 - 1))
        "Bitcoin" "bitcoin.png"]).
Proof.
  assert (Hreal : forall (marketData : list (CryptoStats R)) (days : nat),
     useRiskReturnAnalysis (Some marketData) days =
     map (fun coin =>
            let dailyReturn :=
              match price_change_percentage_24h_in_currency coin with
              | Some change24h => change24h / 100
              | None => 0
              end in
            mkRR (Val (Rabs dailyReturn * sqrt 365))
              (Val ((1 + dailyReturn) ^ 365 - 1))
              (name coin) (image coin))
         marketData).
  { intros marketData days. rewrite useRiskReturnAnalysis_map.
    apply map_ext. intros c. apply projectCoin_real. }
  split; [|split; [exact Hreal|split]].
  - intros T NT ML marketData days. rewrite useRiskReturnAnalysis_map.
    induction marketData as [|coin rest IH]; cbn [map]; constructor.
    + apply projectCoin_formula.
    + exact IH.
  - intros pow days. vm_compute. reflexivity.
  - intros days. rewrite Hreal. cbn [map ten_percent
      price_change_percentage_24h_in_currency name image].
    rewrite ofNat_10. f_equal. f_equal.
    + f_equal. f_equal. rewrite Rabs_pos_eq; lra.
    + f_equal. f_equal. f_equal. lra.
Qed.

(** The totality theorem at the empty series. *)
Lemma engines_total_and_empty_on_empty_input_witness :
  (1 <= 20)%nat /\ calculateSMA (T := R) [] [] 20 = Some [].
Proof.
  split; [lia|].
  apply (proj1 (proj2 (proj2
           (@engines_total_and_empty_on_empty_input R Number_R MathLib_R)))).
  lia.
Defined.

End RealModel.

(** ** Further properties of the hook, on every number system *)

Section HookShape.

Context {T : Type} `{NT : Number T}.

Lemma smaPoint_timestamps (prices : list (Z * T)) (data : list T) (W a : nat) :
  map pt_x (map (smaPoint prices data W) (seq a (length prices - a))) =
  map fst (skipn a prices).
Proof.
  rewrite map_map. rewrite <- timestamps_from. apply map_ext. reflexivity.
Qed.

(** The three series of the snapshot are aligned with the input: the SMA 20,
    the SMA 50 and the RSI carry the timestamps of the samples from index
    19, 49 and 14 on, so all three end at the last sample; the SMA 50 starts
    30 points after the SMA 20, which starts 5 points after the RSI. *)
Theorem snapshot_series_share_the_time_axis (prices : list (Z * T)) :
  exists snap,
    useTechnicalAnalysis (Some prices) = Some snap /\
    map pt_x (sma20 snap) = map fst (skipn 19 prices) /\
    map pt_x (sma50 snap) = map fst (skipn 49 prices) /\
    map pt_x (rsi snap) = map fst (skipn 14 prices) /\
    map pt_x (sma50 snap) = skipn 30 (map pt_x (sma20 snap)) /\
    map pt_x (sma20 snap) = skipn 5 (map pt_x (rsi snap)).
Proof.
  destruct prices as [|p prices].
  - exists emptySnapshot. repeat split; reflexivity.
  - destruct (@useTechnicalAnalysis_nonempty _ _ (p :: prices))
      as (r & _ & Hts & Hrun); [discriminate|].
    eexists. split; [exact Hrun|].
    cbn [sma20 sma50 rsi].
    rewrite !smaPoint_timestamps, Hts.
    repeat split.
    + rewrite skipn_map, skipn_skipn. reflexivity.
    + rewrite skipn_map, skipn_skipn. reflexivity.
Qed.

Lemma slice_last_app {A : Type} (k : nat) (older recent : list A) :
  k <= length recent ->
  slice_last k (older ++ recent) = slice_last k recent.
Proof.
  intros Hk. unfold slice_last. rewrite length_app, skipn_app.
  replace (length older + length recent - k - length older)
    with (length recent - k) by lia.
  rewrite skipn_all2 by lia. reflexivity.
Qed.

(** Support and resistance never look further back than 90 samples: samples
    older than the last 90 do not change them. *)
Theorem support_resistance_ignore_older_samples
  (older recent : list (Z * T)) :
  90 <= length recent ->
  exists snap_all snap_recent,
    useTechnicalAnalysis (Some (older ++ recent)) = Some snap_all /\
    useTechnicalAnalysis (Some recent) = Some snap_recent /\
    support snap_all = support snap_recent /\
    resistance snap_all = resistance snap_recent.
Proof.
  intros Hlen.
  assert (Hr : recent <> [])
    by (destruct recent; [simpl in Hlen; lia | discriminate]).
  assert (Ha : older ++ recent <> []).
  { intros E. apply app_eq_nil in E. tauto. }
  destruct (@useTechnicalAnalysis_nonempty _ _ _ Hr) as (r1 & _ & _ & H1).
  destruct (@useTechnicalAnalysis_nonempty _ _ _ Ha) as (r2 & _ & _ & H2).
  eexists. eexists. split; [exact H2|]. split; [exact H1|].
  cbn [support resistance].
  rewrite map_app, slice_last_app by (rewrite length_map; assumption).
  split; reflexivity.
Qed.

Lemma rsi_body_keeps_losses (prices : list (Z * T)) (data : list T)
  (W i : nat) (st : rsi_state T) :
  1 <= W -> length prices = length data -> 1 <= i < length data ->
  (forall j, 1 <= j <= i -> gt0 (delta data j) = true) ->
  losses st = zero ->
  exists st', rsi_body prices data W i st = Some st' /\ losses st' = zero.
Proof.
  intros HW Hlen Hi Hpos Hst. unfold rsi_body.
  rewrite rsi_accumulate_in_range by lia. cbn [bind].
  rewrite (Hpos i) by lia. unfold rsi_emit. cbn [gains losses st_rsi].
  destruct (W <=? i) eqn:HWi; [|eexists; split; [reflexivity | exact Hst]].
  apply Nat.leb_le in HWi.
  rewrite timestamp_in_range by lia.
  rewrite (nth_error_in_range data zero (i := i - W + 1)) by lia.
  rewrite (nth_error_in_range data zero (i := i - W)) by lia.
  cbn [bind].
  replace (sub (nth (i - W + 1) data zero) (nth (i - W) data zero))
    with (delta data (i - W + 1)).
  2:{ unfold delta. replace (i - W + 1 - 1) with (i - W) by lia. reflexivity. }
  rewrite (Hpos (i - W + 1)) by lia.
  eexists. split; [reflexivity | exact Hst].
Qed.

Lemma rsi_body_keeps_gains (prices : list (Z * T)) (data : list T)
  (W i : nat) (st : rsi_state T) :
  1 <= W -> length prices = length data -> 1 <= i < length data ->
  (forall j, 1 <= j <= i -> gt0 (delta data j) = false) ->
  gains st = zero ->
  exists st', rsi_body prices data W i st = Some st' /\ gains st' = zero.
Proof.
  intros HW Hlen Hi Hneg Hst. unfold rsi_body.
  rewrite rsi_accumulate_in_range by lia. cbn [bind].
  rewrite (Hneg i) by lia. unfold rsi_emit. cbn [gains losses st_rsi].
  destruct (W <=? i) eqn:HWi; [|eexists; split; [reflexivity | exact Hst]].
  apply Nat.leb_le in HWi.
  rewrite timestamp_in_range by lia.
  rewrite (nth_error_in_range data zero (i := i - W + 1)) by lia.
  rewrite (nth_error_in_range data zero (i := i - W)) by lia.
  cbn [bind].
  replace (sub (nth (i - W + 1) data zero) (nth (i - W) data zero))
    with (delta data (i - W + 1)).
  2:{ unfold delta. replace (i - W + 1 - 1) with (i - W) by lia. reflexivity. }
  rewrite (Hneg (i - W + 1)) by lia.
  eexists. split; [reflexivity | exact Hst].
Qed.

(** The running sums are touched only by deltas of their own sign.  On a
    series whose deltas up to sample [i] are all positive (as the loop tests
    them), the [losses] accumulator is the initial 0 itself when the value
    of sample [i] is computed; when none is positive, [gains] is.  This holds
    on binary64 numbers as well: no rounding residue can appear there. *)
Theorem one_sided_series_leave_the_other_sum_at_zero
  (prices : list (Z * T)) (W i : nat) :
  1 <= W -> W <= i < length prices ->
  ((forall j, 1 <= j <= i -> gt0 (delta (map snd prices) j) = true) ->
   exists g, accumulatorsAt prices (map snd prices) W i = Some (g, zero)) /\
  ((forall j, 1 <= j <= i -> gt0 (delta (map snd prices) j) = false) ->
   exists l, accumulatorsAt prices (map snd prices) W i = Some (zero, l)).
Proof.
  intros HW Hi. set (data := map snd prices).
  assert (Hlen : length prices = length data)
    by (symmetry; apply length_map).
  split; intros Hsign; unfold accumulatorsAt.
  - destruct (@for_range_inv _ (rsi_body prices data W)
                (fun _ st => losses st = zero) (i - 1) 1
                (mkState [] zero zero)) as (st & Hrun & Hst).
    + reflexivity.
    + intros j st Hj Hst. apply rsi_body_keeps_losses; try assumption; try lia.
      intros k Hk. apply Hsign. lia.
    + rewrite Hrun. cbn [bind]. rewrite rsi_accumulate_in_range by lia.
      cbn [bind]. rewrite (Hsign i) by lia. cbn [gains losses].
      rewrite Hst. eexists. reflexivity.
  - destruct (@for_range_inv _ (rsi_body prices data W)
                (fun _ st => gains st = zero) (i - 1) 1
                (mkState [] zero zero)) as (st & Hrun & Hst).
    + reflexivity.
    + intros j st Hj Hst. apply rsi_body_keeps_gains; try assumption; try lia.
      intros k Hk. apply Hsign. lia.
    + rewrite Hrun. cbn [bind]. rewrite rsi_accumulate_in_range by lia.
      cbn [bind]. rewrite (Hsign i) by lia. cbn [gains losses].
      rewrite Hst. eexists. reflexivity.
Qed.

End HookShape.

(** The shape properties at sample series. *)
Lemma support_resistance_ignore_older_samples_witness :
  90 <= length (ninety_closes (T := Q)) /\
  (exists snap_all snap_recent,
     useTechnicalAnalysis (T := Q) (Some (one_older ++ ninety_closes)) =
       Some snap_all /\
     useTechnicalAnalysis (T := Q) (Some ninety_closes) = Some snap_recent /\
     support snap_all = support snap_recent /\
     resistance snap_all = resistance snap_recent).
Proof.
  split; [vm_compute; lia|].
  apply (@support_resistance_ignore_older_samples Q Number_Q).
  vm_compute. lia.
Defined.

Lemma steady_rise_binary64_deltas :
  forall j, 1 <= j <= 14 ->
    gt0 (delta (map snd steady_rise_f) j) = true.
Proof.
  intros j Hj.
  do 15 (destruct j as [|j]; [try lia; vm_compute; reflexivity|]).
  lia.
Defined.

Lemma one_sided_series_leave_the_other_sum_at_zero_witness :
  1 <= 14 /\ 14 <= 14 < length steady_rise_f /\
  (forall j, 1 <= j <= 14 ->
     gt0 (delta (map snd steady_rise_f) j) = true) /\
  (exists g,
     accumulatorsAt steady_rise_f (map snd steady_rise_f) 14 14 =
       Some (g, zero)).
Proof.
  split; [lia|]. split; [vm_compute; lia|].
  split; [exact steady_rise_binary64_deltas|].
  apply (proj1 (@one_sided_series_leave_the_other_sum_at_zero float
                  Number_float steady_rise_f 14 14 ltac:(lia)
                  ltac:(vm_compute; lia))).
  exact steady_rise_binary64_deltas.
Defined.

(** ** Further properties of the engines in exact arithmetic *)

Section ExactMore.

Local Open Scope Q_scope.

Ltac nums :=
  change (@zero Q Number_Q) with 0 in *;
  change (@one Q Number_Q) with 1 in *;
  change (@hundred Q Number_Q) with 100 in *;
  change (inject_Z 0) with 0 in *;
  change (@add Q Number_Q) with Qplus in *;
  change (@sub Q Number_Q) with Qminus in *;
  change (@div Q Number_Q) with Qdiv in *.

(** *** The emitted value when the window holds a loss *)

Lemma rsiValue_with_loss (g l : Q) (W : nat) :
  (1 <= W)%nat -> 0 <= g -> 0 < l ->
  rsiValue g l W == 100 * g / (g + l).
Proof.
  intros HW Hg Hl. rewrite rsiValue_of_rs. nums.
  pose proof (ofNat_pos HW) as HWq.
  assert (Hd : 0 < l / ofNat W) by (apply Qlt_shift_div_l; lra).
  assert (E : js_or (l / ofNat W) 1 = l / ofNat W).
  { unfold js_or.
    assert (Ht : truthy (l / ofNat W) = true) by (apply truthy_true; lra).
    rewrite Ht. reflexivity. }
  rewrite E. field. repeat split; lra.
Qed.

(** *** Series that only fall *)

Lemma decreasing_sums (data : list Q) (a : nat) :
  decreasing data -> (1 <= a)%nat ->
  forall n, (a + n <= length data)%nat ->
    posSum data a n == 0 /\
    negSum data a n == nth (a - 1) data 0 - nth (a + n - 1) data 0.
Proof.
  intros Hdec Ha. induction n as [|n IH]; intros Hn.
  - rewrite Nat.add_0_r. unfold posSum, negSum. simpl. rewrite sum_nil.
    split; lra.
  - destruct IH as [IHG IHL]; [lia|].
    rewrite posSum_snoc, negSum_snoc, IHG, IHL.
    assert (Hd : delta data (a + n) < 0).
    { unfold delta. nums. pose proof (Hdec (a + n)%nat ltac:(lia)). lra. }
    unfold posPart, negPart.
    assert (Hgt : gt0 (delta data (a + n)) = false) by (apply gt0_false; lra).
    rewrite Hgt. unfold delta. nums.
    replace (a + S n - 1)%nat with (a + n)%nat by lia. split; lra.
Qed.

(** For a strictly decreasing series of length at least [W + 1] every
    emitted value is 0: the gains sum is 0 over every window. *)
Theorem rsi_decreasing_series (prices : list (Z * Q)) (W : nat) :
  (1 <= W)%nat -> (W + 1 <= length prices)%nat ->
  decreasing (map snd prices) ->
  exists out,
    calculateRSI prices (map snd prices) W = Some out /\
    out <> [] /\
    Forall (fun p => pt_y p == 0) out.
Proof.
  intros HW HN Hdec. set (data := map snd prices) in *.
  assert (Hlen : length data = length prices) by apply length_map.
  destruct (@calculateRSI_naive prices data W HW) as (out & Hrun & Hn);
    [symmetry; assumption|].
  exists out. split; [assumption|]. split.
  - intros ->. apply Forall2_length in Hn. unfold naiveRSI in Hn.
    rewrite length_map, length_seq in Hn. simpl in Hn. lia.
  - apply (naive_transfer (fun v => v == 0) (out := out)
             (spec := naiveRSI prices data W)); [| assumption |].
    + intros a b Hab. rewrite Hab. tauto.
    + apply (@naiveRSI_Forall (fun v => v == 0)). intros i Hi.
      destruct (@decreasing_sums data (i + 1 - W) Hdec ltac:(lia) W
                  ltac:(lia)) as [HG HL].
      change (posSum data (i + 1 - W) W) with (naiveGains data W i) in HG.
      change (negSum data (i + 1 - W) W) with (naiveLosses data W i) in HL.
      assert (Hpos : 0 < naiveLosses data W i).
      { change (naiveLosses data W i) with (negSum data (i + 1 - W) W).
        replace W with (S (W - 1)) at 2 by lia. rewrite negSum_snoc.
        replace (i + 1 - W + (W - 1))%nat with i by lia.
        pose proof (negSum_nonneg data (i + 1 - W) (W - 1)).
        assert (Hd : delta data i < 0).
        { unfold delta. nums. pose proof (Hdec i ltac:(lia)). lra. }
        unfold negPart.
        assert (Hgt : gt0 (delta data i) = false) by (apply gt0_false; lra).
        rewrite Hgt. lra. }
      rewrite rsiValue_with_loss by (assumption || lra).
      rewrite HG. field. lra.
Qed.

(** *** The support and resistance lines of the chart *)

(** The chart draws no annotation line for an empty series; for a series of
    positive prices it draws exactly the two lines, [line1] at the support
    and [line2] at the resistance; a support of exactly 0 is falsy and gets
    no line. *)
Theorem chart_lines_follow_support_and_resistance
  (formatCurrency : scalar Q -> string) (prices : list (Z * Q)) :
  exists snap,
    useTechnicalAnalysis (Some prices) = Some snap /\
    (prices = [] ->
     annotations formatCurrency (support snap) (resistance snap) = []) /\
    (prices <> [] -> Forall (fun p => 0 < snd p) prices ->
     map fst (annotations formatCurrency (support snap) (resistance snap)) =
       ["line1"%string; "line2"%string] /\
     map (fun kl => (yMin (snd kl), yMax (snd kl)))
       (annotations formatCurrency (support snap) (resistance snap)) =
       [(support snap, support snap); (resistance snap, resistance snap)]) /\
    (forall low, support snap = Num low -> low == 0 ->
     ~ In "line1"%string
         (map fst
            (annotations formatCurrency (support snap) (resistance snap)))).
Proof.
  destruct prices as [|p0 prices0].
  { exists emptySnapshot. split; [reflexivity|]. split; [reflexivity|].
    split; [congruence|]. intros low H. discriminate. }
  set (prices := p0 :: prices0).
  destruct (@useTechnicalAnalysis_nonempty Q _ prices ltac:(discriminate))
    as (r & _ & _ & Hrun).
  eexists. split; [exact Hrun|]. cbn [support resistance].
  set (recent := slice_last 90 (map snd prices)).
  split; [discriminate|]. split.
  - intros _ Hpos.
    assert (Hrec : Forall (fun v => 0 < v) recent).
    { rewrite Forall_forall in *. intros v Hv.
      assert (Hin : In v (map snd prices)).
      { unfold recent, slice_last in Hv.
        rewrite <- (firstn_skipn (length (map snd prices) - 90)
                      (map snd prices)).
        apply in_or_app. right. assumption. }
      apply in_map_iff in Hin. destruct Hin as (q & <- & Hq).
      apply Hpos. assumption. }
    destruct recent as [|v rest] eqn:E.
    { exfalso. unfold recent, slice_last in E.
      apply (f_equal (@length Q)) in E.
      rewrite length_skipn, length_map in E. subst prices.
      cbn [length] in E. lia. }
    destruct (fold_min_spec rest v) as [Hmin _].
    destruct (fold_max_spec rest v) as [Hmax _].
    rewrite Forall_forall in Hrec.
    pose proof (Hrec _ Hmin) as Hlo. pose proof (Hrec _ Hmax) as Hhi.
    unfold annotations. cbn [Math_min Math_max scalar_truthy].
    change (@nmin Q Number_Q) with Qmin. change (@nmax Q Number_Q) with Qmax.
    assert (T1 : truthy (fold_left Qmin rest v) = true)
      by (apply truthy_true; lra).
    assert (T2 : truthy (fold_left Qmax rest v) = true)
      by (apply truthy_true; lra).
    rewrite T1, T2. split; reflexivity.
  - intros low Hs Hz. unfold annotations. rewrite Hs.
    cbn [scalar_truthy]. apply truthy_false in Hz. rewrite Hz.
    cbn [app]. destruct (scalar_truthy (Math_max recent)); cbn [map fst In].
    + intros [H|[]]. discriminate.
    + intros [].
Qed.

End ExactMore.

(** The further properties at sample series. *)

Lemma falling_Q_decreasing : decreasing (map snd falling_Q).
Proof.
  intros j Hj. change (length (map snd falling_Q)) with 4 in Hj.
  do 4 (destruct j as [|j]; [try lia; vm_compute; reflexivity|]).
  lia.
Defined.

Lemma rsi_decreasing_series_witness :
  1 <= 2 /\ 2 + 1 <= length falling_Q /\
  decreasing (map snd falling_Q) /\
  (exists out,
     calculateRSI falling_Q (map snd falling_Q) 2 = Some out /\
     out <> [] /\
     Forall (fun p => (pt_y p == 0)%Q) out).
Proof.
  split; [lia|]. split; [vm_compute; lia|].
  split; [exact falling_Q_decreasing|].
  apply (@rsi_decreasing_series falling_Q 2);
    [lia | vm_compute; lia | exact falling_Q_decreasing].
Defined.

Lemma chart_lines_follow_support_and_resistance_witness :
  five_closes_Q <> [] /\
  Forall (fun p => (0 < snd p)%Q) five_closes_Q /\
  (exists snap,
     useTechnicalAnalysis (Some five_closes_Q) = Some snap /\
     map fst (annotations (fun _ => "$"%string) (support snap)
                (resistance snap)) =
       ["line1"%string; "line2"%string]).
Proof.
  assert (Hpos : Forall (fun p => (0 < snd p)%Q) five_closes_Q).
  { repeat constructor. }
  split; [discriminate|]. split; [exact Hpos|].
  destruct (@chart_lines_follow_support_and_resistance
              (fun _ => "$"%string) five_closes_Q)
    as (snap & Hrun & _ & Hlines & _).
  exists snap. split; [exact Hrun|].
  apply Hlines; [discriminate | exact Hpos].
Defined.

(** ** Favorites: the handlers of the App component *)

Section Favorites.

Lemma includes_app (l : list string) (x id : string) :
  includes (l ++ [x]) id = (includes l id || String.eqb x id)%bool.
Proof.
  unfold includes. rewrite existsb_app. simpl. rewrite orb_false_r.
  reflexivity.
Qed.

Lemma includes_without (l : list string) (x id : string) :
  includes (without x l) id =
  (includes l id && negb (String.eqb id x))%bool.
Proof.
  unfold includes, without. induction l as [|y l IH]; [reflexivity|].
  cbn [filter existsb].
  destruct (String.eqb y x) eqn:Eyx; cbn [negb existsb]; rewrite IH.
  - apply String.eqb_eq in Eyx. subst y.
    rewrite (String.eqb_sym x id).
    destruct (String.eqb id x); simpl; [rewrite andb_false_r|]; reflexivity.
  - destruct (String.eqb y id) eqn:Eyi; [|reflexivity].
    apply String.eqb_eq in Eyi. subst y.
    rewrite Eyx. reflexivity.
Qed.

Lemma includes_In (l : list string) (id : string) :
  includes l id = true <-> In id l.
Proof.
  unfold includes. rewrite existsb_exists. split.
  - intros (x & Hx & E). apply String.eqb_eq in E. subst. assumption.
  - intros H. exists id. split; [assumption | apply String.eqb_refl].
Qed.

Lemma without_absent (l : list string) (x : string) :
  includes l x = false -> without x l = l.
Proof.
  intros H. unfold without. apply forallb_filter_id.
  apply forallb_forall. intros y Hy.
  destruct (String.eqb y x) eqn:E; [|reflexivity].
  apply String.eqb_eq in E. subst y.
  apply includes_In in Hy. congruence.
Qed.

(** The favorite button flips the selected coin and nothing else: after
    [handleToggleFavorite] the selected coin is a favorite exactly when it
    was not one before, and every other coin is a favorite exactly when it
    was one. *)
Theorem toggle_flips_only_the_selected_coin (s : AppState) (id : string) :
  includes (favorites (handleToggleFavorite s)) id =
  if String.eqb id (selectedCrypto s)
  then negb (includes (favorites s) id)
  else includes (favorites s) id.
Proof.
  unfold handleToggleFavorite. cbn [favorites].
  destruct (includes (favorites s) (selectedCrypto s)) eqn:Hin.
  - rewrite includes_without.
    destruct (String.eqb id (selectedCrypto s)) eqn:E.
    + apply String.eqb_eq in E. subst id. rewrite Hin. reflexivity.
    + simpl. apply andb_true_r.
  - rewrite includes_app, (String.eqb_sym (selectedCrypto s) id).
    destruct (String.eqb id (selectedCrypto s)) eqn:E.
    + apply String.eqb_eq in E. subst id. rewrite Hin. reflexivity.
    + apply orb_false_r.
Qed.

(** Pressing the favorite button twice gives back the same set of
    favorites, and the very same list when the coin was not a favorite. *)
Theorem toggle_twice_restores_the_favorites (s : AppState) :
  (forall id,
     includes (favorites (handleToggleFavorite (handleToggleFavorite s))) id =
     includes (favorites s) id) /\
  (includes (favorites s) (selectedCrypto s) = false ->
   favorites (handleToggleFavorite (handleToggleFavorite s)) = favorites s).
Proof.
  split.
  - intros id. rewrite !toggle_flips_only_the_selected_coin.
    cbn [selectedCrypto handleToggleFavorite].
    destruct (String.eqb id (selectedCrypto s)); [|reflexivity].
    apply negb_involutive.
  - intros Hin. unfold handleToggleFavorite at 2. rewrite Hin.
    unfold handleToggleFavorite. cbn [favorites selectedCrypto].
    rewrite includes_app, String.eqb_refl, orb_true_r.
    unfold without. rewrite filter_app. cbn [filter].
    rewrite String.eqb_refl. cbn [negb]. rewrite app_nil_r.
    apply without_absent. assumption.
Qed.

(** Removing a favorite: the coin is no favorite afterwards, every other
    coin keeps its status, removing again changes nothing, and removing a
    coin that is no favorite leaves the list as it is. *)
Theorem remove_drops_only_that_coin (s : AppState) (idToRemove : string) :
  (forall id,
     includes (favorites (onRemove idToRemove s)) id =
     (includes (favorites s) id && negb (String.eqb id idToRemove))%bool) /\
  onRemove idToRemove (onRemove idToRemove s) = onRemove idToRemove s /\
  (includes (favorites s) idToRemove = false ->
   favorites (onRemove idToRemove s) = favorites s).
Proof.
  split; [|split].
  - intros id. apply includes_without.
  - unfold onRemove. cbn [favorites selectedCrypto].
    assert (E : without idToRemove (without idToRemove (favorites s)) =
                without idToRemove (favorites s)).
    { apply without_absent. rewrite includes_without, String.eqb_refl.
      apply andb_false_r. }
    rewrite E. reflexivity.
  - intros H. apply without_absent. assumption.
Qed.

Lemma handle_mirrors (s : AppState) (e : event) :
  savedFavorites s = favorites s ->
  savedFavorites (handle s e) = favorites (handle s e).
Proof.
  intros H. destruct e; cbn; try reflexivity. exact H.
Qed.

(** What the local storage holds is what the page shows: after mounting and
    any sequence of clicks, the stored list is the current list of
    favorites. *)
Theorem stored_favorites_mirror_the_state (s : AppState)
  (events : list event) :
  savedFavorites (run events (loadFavorites s)) =
  favorites (run events (loadFavorites s)).
Proof.
  unfold run.
  assert (H0 : savedFavorites (loadFavorites s) = favorites (loadFavorites s))
    by reflexivity.
  revert H0. generalize (loadFavorites s). clear s.
  induction events as [|e events IH]; intros s H; [exact H|].
  cbn [fold_left]. apply IH. apply handle_mirrors. assumption.
Qed.

Lemma handle_NoDup (s : AppState) (e : event) :
  NoDup (favorites s) -> NoDup (favorites (handle s e)).
Proof.
  intros H. destruct e; cbn [handle].
  - unfold handleToggleFavorite. cbn [favorites].
    destruct (includes (favorites s) (selectedCrypto s)) eqn:Hin.
    + apply NoDup_filter. assumption.
    + apply NoDup_app; [assumption | repeat constructor; intros [] |].
      intros a Ha [E|[]]. subst a.
      apply includes_In in Ha. congruence.
  - apply NoDup_filter. assumption.
  - assumption.
Qed.

(** No coin is listed twice: when the stored list has no duplicate, no
    sequence of clicks produces one. *)
Theorem favorites_stay_free_of_duplicates (s : AppState)
  (events : list event) :
  NoDup (savedFavorites s) ->
  NoDup (favorites (run events (loadFavorites s))).
Proof.
  intros H. unfold run.
  assert (H0 : NoDup (favorites (loadFavorites s))) by exact H.
  revert H0. generalize (loadFavorites s). clear s H.
  induction events as [|e events IH]; intros s H; [exact H|].
  cbn [fold_left]. apply IH. apply handle_NoDup. assumption.
Qed.

Lemma favoriteDetails_cons (id : string) (favs : list string)
  (cryptoList : list Crypto) :
  favoriteDetails (id :: favs) cryptoList =
  match find (fun c => String.eqb (crypto_id c) id) cryptoList with
  | Some c => c :: favoriteDetails favs cryptoList
  | None => favoriteDetails favs cryptoList
  end.
Proof.
  unfold favoriteDetails. cbn [map filterBoolean].
  destruct (find _ cryptoList); reflexivity.
Qed.

(** The favorites panel lists, in the order of the favorites, the catalog
    entry of every favorite that the catalog knows and silently skips the
    others: the ids shown are the favorites filtered by presence in the
    catalog, and every entry shown comes from the catalog. *)
Theorem favorite_details_are_the_known_favorites (favs : list string)
  (cryptoList : list Crypto) :
  map crypto_id (favoriteDetails favs cryptoList) =
    filter (fun id => existsb (fun c => String.eqb (crypto_id c) id) cryptoList)
      favs /\
  Forall (fun c => In c cryptoList) (favoriteDetails favs cryptoList) /\
  ((forall id, In id favs -> In id (map crypto_id cryptoList)) ->
   map crypto_id (favoriteDetails favs cryptoList) = favs).
Proof.
  assert (Hids : map crypto_id (favoriteDetails favs cryptoList) =
    filter (fun id => existsb (fun c => String.eqb (crypto_id c) id) cryptoList)
      favs).
  { induction favs as [|id favs IH]; [reflexivity|].
    rewrite favoriteDetails_cons. cbn [filter].
    destruct (find (fun c => String.eqb (crypto_id c) id) cryptoList)
      as [c|] eqn:E.
    - destruct (find_some _ _ E) as [Hc Hid].
      assert (Hex : existsb (fun c => String.eqb (crypto_id c) id) cryptoList
                    = true).
      { apply existsb_exists. exists c. split; assumption. }
      rewrite Hex. cbn [map]. apply String.eqb_eq in Hid.
      rewrite Hid, IH. reflexivity.
    - assert (Hex : existsb (fun c => String.eqb (crypto_id c) id) cryptoList
                    = false).
      { destruct (existsb _ cryptoList) eqn:Eb; [|reflexivity].
        apply existsb_exists in Eb. destruct Eb as (c & Hc & Hid).
        rewrite (find_none _ _ E c Hc) in Hid. discriminate. }
      rewrite Hex. exact IH. }
  split; [exact Hids|]. split.
  - clear Hids. induction favs as [|id favs IH]; [constructor|].
    rewrite favoriteDetails_cons.
    destruct (find (fun c => String.eqb (crypto_id c) id) cryptoList)
      as [c|] eqn:E; [|apply IH].
    constructor; [|apply IH]. apply (find_some _ _ E).
  - intros Hall. rewrite Hids. apply forallb_filter_id.
    apply forallb_forall. intros id Hid.
    apply Hall in Hid. apply in_map_iff in Hid.
    destruct Hid as (c & Hc & Hin).
    apply existsb_exists. exists c. split; [assumption|].
    rewrite Hc. apply String.eqb_refl.
Qed.

End Favorites.

(** The favorites properties at a sample state. *)

Lemma toggle_twice_restores_the_favorites_witness :
  includes (favorites sample_state) (selectedCrypto sample_state) = false /\
  favorites (handleToggleFavorite (handleToggleFavorite sample_state)) =
    favorites sample_state.
Proof.
  split; [reflexivity|].
  apply (proj2 (toggle_twice_restores_the_favorites sample_state)).
  reflexivity.
Defined.

Lemma remove_drops_only_that_coin_witness :
  includes (favorites sample_state) "solana" = false /\
  favorites (onRemove "solana" sample_state) = favorites sample_state.
Proof.
  split; [reflexivity|].
  apply (proj2 (proj2 (remove_drops_only_that_coin sample_state "solana"))).
  reflexivity.
Defined.

Lemma favorites_stay_free_of_duplicates_witness :
  NoDup (savedFavorites sample_state) /\
  NoDup (favorites
           (run [ToggleFavorite; SelectCrypto "ethereum"; ToggleFavorite;
                 RemoveFavorite "bitcoin"; ToggleFavorite]
              (loadFavorites sample_state))).
Proof.
  assert (H : NoDup (savedFavorites sample_state)).
  { repeat constructor. intros []. }
  split; [exact H|].
  apply (favorites_stay_free_of_duplicates sample_state). exact H.
Defined.

Lemma favorite_details_are_the_known_favorites_witness :
  (forall id, In id ["ethereum"%string; "bitcoin"%string] ->
     In id (map crypto_id sample_catalog)) /\
  map crypto_id
    (favoriteDetails ["ethereum"%string; "bitcoin"%string] sample_catalog) =
  ["ethereum"%string; "bitcoin"%string].
Proof.
  assert (H : forall id, In id ["ethereum"%string; "bitcoin"%string] ->
                In id (map crypto_id sample_catalog)).
  { intros id [<-|[<-|[]]]; simpl; auto. }
  split; [exact H|].
  apply (proj2 (proj2 (favorite_details_are_the_known_favorites
                         ["ethereum"%string; "bitcoin"%string]
                         sample_catalog))).
  exact H.
Defined.

